(** * eckey.c: EC key handling for the remote-attestation key exchange

    A shallow embedding of [src/eckey.c] and the properties of its four
    entry points: [key_load_file], [key_from_sgx_ec256],
    [key_shared_secret] and [key_perror].

    The file is organised as follows.
    - Byte strings and the two integer encodings the code relies on.
    - The named curves and the curve equation.
    - The machine state: the two statics of the translation unit, [errno],
      the objects of the cryptographic library that are alive, the open
      streams, the caller's C strings and what was written to [stderr].
    - A small monad for C bodies with early exits ([return] in the middle of
      a function, [goto cleanup]).
    - The library calls the source makes, each under its C name.
    - The four functions of the source.
    - What the theorems are stated with: a weakest precondition for bodies,
      the ways each function ends, a concrete environment.
    - The proofs: the encodings, the rules of the weakest precondition, one
      summary per function, and the theorems on the error record, the
      curves, the streams, the shared secret and the report.
    - Further properties of the four functions: which inputs each accepts,
      what each leaves in the heap of the library, how they compose. *)

From Stdlib Require Import ZArith List Bool Lia Zpow_facts.
From stdpp Require Import base option gmap strings list.

Local Open Scope Z_scope.

(** ** Bytes and integer encodings *)

Abbreviation byte := Byte.byte.

Definition byte_val (b : byte) : Z := Z.of_N (Byte.to_N b).

Definition byte_of_Z (z : Z) : byte :=
  default Byte.x00 (Byte.of_N (Z.to_N (z mod 256))).

(** Value of a byte string read least significant byte first. *)
Fixpoint le_value (s : list byte) : Z :=
  match s with
  | [] => 0
  | b :: r => byte_val b + 256 * le_value r
  end.

(** The [n] low bytes of [x], least significant first: the wire encoding of
    one coordinate. *)
Fixpoint le_bytes (n : nat) (x : Z) : list byte :=
  match n with
  | O => []
  | S k => byte_of_Z x :: le_bytes k (x / 256)
  end.

(** The same bytes most significant first, as the library lays out a field
    element of fixed width. *)
Definition be_bytes (n : nat) (x : Z) : list byte := rev (le_bytes n x).

(** ** Named curves *)

Inductive curve := prime256v1 | secp384r1 | secp256k1.

Global Instance curve_eq_dec : EqDecision curve.
Proof. solve_decision. Defined.

Record curve_params := {
  field_p : Z;   (* the prime of the base field *)
  coef_a : Z;
  coef_b : Z;
  degree : Z     (* bit length of the field *)
}.

Definition params_of (c : curve) : curve_params :=
  match c with
  | prime256v1 =>
      {| field_p := 0xffffffff00000001000000000000000000000000ffffffffffffffffffffffff;
         coef_a := 0xffffffff00000001000000000000000000000000fffffffffffffffffffffffc;
         coef_b := 0x5ac635d8aa3a93e7b3ebbd55769886bc651d06b0cc53b0f63bce3c3e27d2604b;
         degree := 256 |}
  | secp384r1 =>
      {| field_p := 2 ^ 384 - 2 ^ 128 - 2 ^ 96 + 2 ^ 32 - 1;
         coef_a := 2 ^ 384 - 2 ^ 128 - 2 ^ 96 + 2 ^ 32 - 4;
         coef_b := 0xb3312fa7e23ee7e4988e056be3f82d19181d9c6efe8141120314088f5013875ac656398d8a2ed19d2a85c8edd3ec2aef;
         degree := 384 |}
  | secp256k1 =>
      {| field_p := 2 ^ 256 - 2 ^ 32 - 977;
         coef_a := 0;
         coef_b := 7;
         degree := 256 |}
  end.

(** The curve the source names at lines 66 and 118. *)
Definition NID_X9_62_prime256v1 : curve := prime256v1.

(** Width of one coordinate of the wire format ([sgx_ec256_public_t]). *)
Definition SGX_ECP256_KEY_SIZE : nat := 32.

(** The affine curve equation y^2 = x^3 + a x + b over the field. *)
Definition on_curve (c : curve) (x y : Z) : bool :=
  let P := params_of c in
  (y * y) mod field_p P =? (x * x * x + coef_a P * x + coef_b P) mod field_p P.

Definition in_field (c : curve) (x : Z) : bool :=
  (0 <=? x) && (x <? field_p (params_of c)).

(** A public point the library accepts: both coordinates reduced, and the
    equation holds.  (The three curves have cofactor one, so every such point
    has the order of the group.) *)
Definition valid_public_point (c : curve) (x y : Z) : bool :=
  in_field c x && in_field c y && on_curve c x y.

(** Length in bytes of a field element, hence of an ECDH shared secret. *)
Definition field_bytes (c : curve) : Z := (degree (params_of c) + 7) / 8.

(** The generator of P-256, used as a concrete point. *)
Definition P256_Gx : Z := 0x6b17d1f2e12c4247f8bce6e563a440f277037d812deb33a0f4a13945d898c296.
Definition P256_Gy : Z := 0x4fe342e2fe1a7f9b8ee7eb4a7c0f9e162bce33576b315ececbb6406837bf51f5.

(** ** Machine state *)

(** [static enum _error_type] (lines 9 to 13). *)
Inductive _error_type := e_none | e_crypto | e_system.

Global Instance error_type_eq_dec : EqDecision _error_type.
Proof. solve_decision. Defined.

(** Pointers.  A pointer to a library object, to a stream or to a C string
    is a handle or NULL. *)
Abbreviation ptr := (option nat).

(** What an [EVP_PKEY] holds: nothing yet, an EC key (domain parameters
    alone when both parts are absent), or a key of another algorithm. *)
Inductive pkey_body :=
| PK_none
| PK_ec (c : curve) (pub : option (Z * Z)) (priv : option Z)
| PK_not_ec.

(** Objects of the library.  The library shares keys by reference count; the
    keys are never changed once shared, so the model holds them by value:
    every counted reference the code owns is an entry of its own in the heap,
    and the matching free removes that entry. *)
Inductive obj :=
| BIGNUM (v : Z)
| EC_KEY (c : curve) (pub : option (Z * Z)) (priv : option Z)
| EVP_PKEY (b : pkey_body)
| EVP_PKEY_CTX (nid : option curve) (pkey : pkey_body) (peer : pkey_body)
| BUFFER (size : Z) (data : list byte).

(** What a PEM file decodes to. *)
Inductive pem_content :=
| PEM_garbage
| PEM_ec_key (c : curve) (pub : Z * Z) (priv : Z)
| PEM_other_key.

(** A write to one of the two statics: kept as a ghost history so that the
    number of assignments an operation makes can be counted. *)
Inductive store := Store_error_type (k : _error_type) | Store_ep (a : ptr).

(** What the code sends to [stderr]. *)
Inductive output :=
| Out_text (s : string)
| Out_slen (n : Z)                               (* line 182 *)
| Out_secret (p : ptr)                           (* line 189 *)
| Out_perror (msg : option string) (errnum : Z)  (* [perror]: message and the error number it describes *)
| Out_error_queue.                               (* [ERR_print_errors_fp] *)

Record world := {
  error_type : _error_type;        (* line 13 *)
  ep : ptr;                        (* line 15 *)
  stores : list store;             (* ghost: assignments to the two statics, oldest first *)
  errno : Z;
  heap : gmap nat obj;             (* live library objects *)
  files : gmap nat pem_content;    (* open streams and what they read *)
  strings : gmap nat string;       (* C strings in the caller's memory *)
  stderr : list output;            (* oldest first *)
  draws : nat                      (* key pairs generated so far *)
}.

Definition set_error_type (k : _error_type) (w : world) : world :=
  {| error_type := k; ep := ep w; stores := stores w ++ [Store_error_type k];
     errno := errno w; heap := heap w; files := files w; strings := strings w;
     stderr := stderr w; draws := draws w |}.

Definition set_ep (a : ptr) (w : world) : world :=
  {| error_type := error_type w; ep := a; stores := stores w ++ [Store_ep a];
     errno := errno w; heap := heap w; files := files w; strings := strings w;
     stderr := stderr w; draws := draws w |}.

Definition set_errno (e : Z) (w : world) : world :=
  {| error_type := error_type w; ep := ep w; stores := stores w;
     errno := e; heap := heap w; files := files w; strings := strings w;
     stderr := stderr w; draws := draws w |}.

Definition set_heap (m : gmap nat obj) (w : world) : world :=
  {| error_type := error_type w; ep := ep w; stores := stores w;
     errno := errno w; heap := m; files := files w; strings := strings w;
     stderr := stderr w; draws := draws w |}.

Definition set_files (m : gmap nat pem_content) (w : world) : world :=
  {| error_type := error_type w; ep := ep w; stores := stores w;
     errno := errno w; heap := heap w; files := m; strings := strings w;
     stderr := stderr w; draws := draws w |}.

Definition set_strings (m : gmap nat string) (w : world) : world :=
  {| error_type := error_type w; ep := ep w; stores := stores w;
     errno := errno w; heap := heap w; files := files w; strings := m;
     stderr := stderr w; draws := draws w |}.

Definition emit (o : output) (w : world) : world :=
  {| error_type := error_type w; ep := ep w; stores := stores w;
     errno := errno w; heap := heap w; files := files w; strings := strings w;
     stderr := stderr w ++ [o]; draws := draws w |}.

Definition set_draws (n : nat) (w : world) : world :=
  {| error_type := error_type w; ep := ep w; stores := stores w;
     errno := errno w; heap := heap w; files := files w; strings := strings w;
     stderr := stderr w; draws := n |}.

(** A handle no live object uses. *)
Definition fresh_handle {A} (m : gmap nat A) : nat :=
  S (max_list (elements (dom m))).

Definition alloc (o : obj) (w : world) : nat * world :=
  let h := fresh_handle (heap w) in (h, set_heap (<[h := o]> (heap w)) w).

Definition release (h : nat) (w : world) : world :=
  set_heap (delete h (heap w)) w.

Definition update (h : nat) (o : obj) (w : world) : world :=
  set_heap (<[h := o]> (heap w)) w.

(** ** The environment of a call

    The library and the operating system answer each call.  Where the source
    tests the answer (a null pointer, a status it negates with [!]), the
    environment holds the verdict for that call site: [true] when the library
    has the resources to carry the call out.  A verdict [false] makes the
    call return NULL or the status 0. *)

Inductive site :=
| at_load_pkey_new     (* line 26 *)
| at_load_pem_read     (* line 33 *)
| at_sgx_gx            (* line 56 *)
| at_sgx_gy            (* line 61 *)
| at_sgx_key_new       (* line 66 *)
| at_sgx_set_pub       (* line 72 *)
| at_ss_pctx_new       (* line 105 *)
| at_ss_paramgen_init  (* line 113 *)
| at_ss_set_curve      (* line 118 *)
| at_ss_paramgen       (* line 123 *)
| at_ss_kctx_new       (* line 130 *)
| at_ss_keygen_init    (* line 136 *)
| at_ss_keygen         (* line 141 *)
| at_ss_peer_new       (* line 148 *)
| at_ss_set1           (* line 154 *)
| at_ss_sctx_new       (* line 161 *)
| at_ss_derive_init    (* line 167 *)
| at_ss_set_peer       (* line 172 *)
| at_ss_derive_len     (* line 178 *)
| at_ss_malloc         (* line 184 *)
| at_ss_derive.        (* line 191 *)

Global Instance site_eq_dec : EqDecision site.
Proof. solve_decision. Defined.

Record env := {
  lib_ok : site -> bool;
  fopen_result : string -> Z + pem_content;  (* per path: the error number, or what the file holds *)
  entropy : nat -> Z;                        (* the scalar of the n-th generated key pair *)
  scalar_base : curve -> Z -> Z * Z;         (* scalar times the generator *)
  ecdh_x : Z -> Z * Z -> Z                   (* x coordinate of scalar times point *)
}.

(** ** C bodies with early exits

    A body runs over its local variables [F] and the world.  It either goes
    on with a value or leaves the enclosing block with a result [R]: a
    [return] in the middle of a function, or a [goto] to the label that ends
    the block. *)

Inductive flow (R A : Type) := Next (a : A) | Exit (r : R).
Arguments Next {R A} a.
Arguments Exit {R A} r.

Definition M (F R A : Type) : Type := F * world -> flow R A * (F * world).

Global Instance M_ret {F R} : MRet (M F R) := fun A a s => (Next a, s).

Global Instance M_bind {F R} : MBind (M F R) := fun A B k m s =>
  match m s with
  | (Next a, s') => k a s'
  | (Exit r, s') => (Exit r, s')
  end.

(** A call into the library or the system. *)
Definition call {F R A} (f : world -> A * world) : M F R A :=
  fun s => (Next (fst (f (snd s))), (fst s, snd (f (snd s)))).

(** A statement that only changes the world. *)
Definition effect {F R} (f : world -> world) : M F R unit :=
  fun s => (Next tt, (fst s, f (snd s))).

(** Assignment to a local variable. *)
Definition assign {F R} (upd : F -> F) : M F R unit :=
  fun s => (Next tt, (upd (fst s), snd s)).

Definition read {F R A} (proj : F -> A) : M F R A :=
  fun s => (Next (proj (fst s)), s).

Definition leave {F R A} (r : R) : M F R A := fun s => (Exit r, s).

Definition when_ {F R} (c : bool) (m : M F R unit) : M F R unit :=
  if c then m else mret tt.

(** [block ;; label: rest]: whether the block falls through or jumps, control
    arrives at [rest] with the state the block left. *)
Definition at_label {F R A} (block : M F unit unit) (rest : M F R A) : M F R A :=
  fun s => rest (snd (block s)).

Definition result {R} (f : flow R R) : R :=
  match f with Next r => r | Exit r => r end.

Definition is_null {A} (p : option A) : bool :=
  match p with None => true | Some _ => false end.

(** ** The library and the system *)

(** Statuses.  The library answers 1 for success and 0 or a negative value
    for failure.  In the model a call answers 0 when it lacks the resources
    (the verdict of its site is [false]) or is handed an object it cannot
    work on; the one negative answer is that of
    [EVP_PKEY_derive_set_peer] for a peer key whose parameters differ.  The
    source tests every status with the operator [!]. *)
Definition status (b : bool) : Z := if b then 1 else 0.

Definition c_not (v : Z) : bool := v =? 0.

(** What a pointer points to: the handle and the object, when the pointer
    is not null and the object is alive. *)
Definition deref (w : world) (p : ptr) : option (nat * obj) :=
  match p with
  | Some h =>
      match heap w !! h with
      | Some o => Some (h, o)
      | None => None
      end
  | None => None
  end.

Definition new_object (ok : bool) (o : obj) (w : world) : ptr * world :=
  if ok then (Some (fst (alloc o w)), snd (alloc o w)) else (None, w).

Definition free_object (p : ptr) (w : world) : world :=
  match p with
  | Some h => release h w
  | None => w
  end.

(** [BN_lebin2bn(s, len, NULL)]: a new number holding the first [len] bytes
    of [s] read least significant byte first. *)
Definition BN_lebin2bn (ok : bool) (s : list byte) (len : nat) : world -> ptr * world :=
  new_object ok (BIGNUM (le_value (take len s))).

Definition BN_free : ptr -> world -> world := free_object.

(** [EC_KEY_new_by_curve_name(nid)]: a key object on the curve, with no key
    in it yet. *)
Definition EC_KEY_new_by_curve_name (ok : bool) (nid : curve) : world -> ptr * world :=
  new_object ok (EC_KEY nid None None).

Definition EC_KEY_free : ptr -> world -> world := free_object.

(** [EC_KEY_set_public_key_affine_coordinates(key, x, y)]: installs the point
    when both coordinates are reduced and satisfy the equation of the key's
    curve, and answers 0 otherwise, leaving the key as it was. *)
Definition EC_KEY_set_public_key_affine_coordinates
    (ok : bool) (key x y : ptr) (w : world) : Z * world :=
  match deref w key, deref w x, deref w y with
  | Some (k, EC_KEY c _ priv), Some (_, BIGNUM vx), Some (_, BIGNUM vy) =>
      if ok && valid_public_point c vx vy
      then (1, update k (EC_KEY c (Some (vx, vy)) priv) w)
      else (0, w)
  | _, _, _ => (0, w)
  end.

Definition EVP_PKEY_new (ok : bool) : world -> ptr * world :=
  new_object ok (EVP_PKEY PK_none).

(** [EVP_PKEY_free] drops the reference; a key held by the object goes with
    it. *)
Definition EVP_PKEY_free : ptr -> world -> world := free_object.

(** [EVP_PKEY_CTX_new_id(EVP_PKEY_EC, NULL)]. *)
Definition EVP_PKEY_CTX_new_id (ok : bool) : world -> ptr * world :=
  new_object ok (EVP_PKEY_CTX None PK_none PK_none).

(** [EVP_PKEY_CTX_new(pkey, NULL)]: a context for the key [pkey]. *)
Definition EVP_PKEY_CTX_new (ok : bool) (pkey : ptr) (w : world) : ptr * world :=
  match deref w pkey with
  | Some (_, EVP_PKEY b) => new_object ok (EVP_PKEY_CTX None b PK_none) w
  | _ => (None, w)
  end.

Definition EVP_PKEY_CTX_free : ptr -> world -> world := free_object.

Definition EVP_PKEY_paramgen_init (ok : bool) (ctx : ptr) (w : world) : Z * world :=
  (status (ok && negb (is_null (deref w ctx))), w).

Definition EVP_PKEY_CTX_set_ec_paramgen_curve_nid
    (ok : bool) (ctx : ptr) (nid : curve) (w : world) : Z * world :=
  match deref w ctx with
  | Some (h, EVP_PKEY_CTX _ k p) =>
      if ok then (1, update h (EVP_PKEY_CTX (Some nid) k p) w)
      else (0, w)
  | _ => (0, w)
  end.

(** [EVP_PKEY_paramgen(ctx, &params)]: the second component is the new value
    of the variable, which the source leaves null before the call: the new
    parameter object on success, null still on failure. *)
Definition EVP_PKEY_paramgen (ok : bool) (ctx : ptr) (w : world) : (Z * ptr) * world :=
  match deref w ctx with
  | Some (_, EVP_PKEY_CTX (Some c) _ _) =>
      let r := new_object ok (EVP_PKEY (PK_ec c None None)) w in
      ((status (negb (is_null (fst r))), fst r), snd r)
  | _ => ((0, None), w)
  end.

Definition EVP_PKEY_keygen_init (ok : bool) (ctx : ptr) (w : world) : Z * world :=
  (status (ok && negb (is_null (deref w ctx))), w).

(** [EVP_PKEY_keygen(ctx, &key)]: a new key pair on the parameters of the
    context, from the next draw of the generator.  The second component is
    the new value of the variable, as for [EVP_PKEY_paramgen]. *)
Definition EVP_PKEY_keygen (E : env) (ok : bool) (ctx : ptr) (w : world) : (Z * ptr) * world :=
  match deref w ctx with
  | Some (_, EVP_PKEY_CTX _ (PK_ec c _ _) _) =>
      let d := entropy E (draws w) in
      let r := new_object ok (EVP_PKEY (PK_ec c (Some (scalar_base E c d)) (Some d)))
                 (set_draws (S (draws w)) w) in
      if is_null (fst r) then ((0, None), w) else ((1, fst r), snd r)
  | _ => ((0, None), w)
  end.

(** [EVP_PKEY_set1_EC_KEY(pkey, key)]: [pkey] takes a reference of its own
    to [key]. *)
Definition EVP_PKEY_set1_EC_KEY (ok : bool) (pkey key : ptr) (w : world) : Z * world :=
  match deref w pkey, deref w key with
  | Some (h, EVP_PKEY _), Some (_, EC_KEY c pub priv) =>
      if ok then (1, update h (EVP_PKEY (PK_ec c pub priv)) w)
      else (0, w)
  | _, _ => (0, w)
  end.

(** [EVP_PKEY_get1_EC_KEY(pkey)]: a new reference to the EC key inside
    [pkey], or NULL when [pkey] holds no EC key.  The library reads through
    [pkey] without a test: on a null [pkey] the call is undefined, which is
    the answer [None]. *)
Definition EVP_PKEY_get1_EC_KEY (pkey : ptr) (w : world) : option ptr * world :=
  match pkey with
  | None => (None, w)
  | Some h =>
      match heap w !! h with
      | Some (EVP_PKEY (PK_ec c pub priv)) =>
          let r := new_object true (EC_KEY c pub priv) w in (Some (fst r), snd r)
      | _ => (Some None, w)
      end
  end.

Definition EVP_PKEY_derive_init (ok : bool) (ctx : ptr) (w : world) : Z * world :=
  (status (ok && negb (is_null (deref w ctx))), w).

(** The two keys of an agreement must be EC keys on the same curve. *)
Definition curve_eqb (c1 c2 : curve) : bool :=
  match c1, c2 with
  | prime256v1, prime256v1 | secp384r1, secp384r1 | secp256k1, secp256k1 => true
  | _, _ => false
  end.

Definition same_parameters (k b : pkey_body) : bool :=
  match k, b with
  | PK_ec c1 _ _, PK_ec c2 _ _ => curve_eqb c1 c2
  | _, _ => false
  end.

(** [EVP_PKEY_derive_set_peer(ctx, peer)]: installs [peer] as the other
    party's key.  A peer whose parameters differ from those of the key of
    the context is refused with the status -1, and the context stays without
    a peer. *)
Definition EVP_PKEY_derive_set_peer (ok : bool) (ctx peer : ptr) (w : world) : Z * world :=
  match deref w ctx, deref w peer with
  | Some (h, EVP_PKEY_CTX n k _), Some (_, EVP_PKEY b) =>
      if ok then
        if same_parameters k b
        then (1, update h (EVP_PKEY_CTX n k b) w)
        else (-1, w)
      else (0, w)
  | _, _ => (0, w)
  end.

(** [EVP_PKEY_derive(ctx, key, keylen)].  With a null [key] the call writes
    the size of the secret to [*keylen].  Otherwise [*keylen] holds the size
    of the buffer on entry; the secret (the x coordinate of the product, as a
    field element most significant byte first) is written to the buffer, cut
    to the size of the buffer, and [*keylen] receives the number of bytes
    written.  Without a peer installed, or on any other failure, the call
    answers 0 and leaves [*keylen] and the buffer as they were.  The second
    component of the answer is the new value of [*keylen]. *)
Definition EVP_PKEY_derive
    (E : env) (ok : bool) (ctx key : ptr) (keylen : Z) (w : world) : (Z * Z) * world :=
  match deref w ctx with
  | Some (_, EVP_PKEY_CTX _ (PK_ec c _ priv) (PK_ec _ pub _)) =>
      if ok then
        match key with
        | None => ((1, field_bytes c), w)
        | Some b =>
            match priv, pub, heap w !! b with
            | Some d, Some Q, Some (BUFFER size _) =>
                let n := Z.min keylen (field_bytes c) in
                let secret := be_bytes (Z.to_nat (field_bytes c)) (ecdh_x E d Q) in
                ((1, n), update b (BUFFER size (take (Z.to_nat n) secret)) w)
            | _, _, _ => ((0, keylen), w)
            end
        end
      else ((0, keylen), w)
  | _ => ((0, keylen), w)
  end.

(** [OPENSSL_malloc(num)]: NULL for a request of no bytes. *)
Definition OPENSSL_malloc (ok : bool) (num : Z) : world -> ptr * world :=
  new_object (ok && (0 <? num)) (BUFFER num []).

Definition OPENSSL_free : ptr -> world -> world := free_object.

(** The C string a pointer points to. *)
Definition c_string (w : world) (p : ptr) : option string :=
  match p with
  | Some a => strings w !! a
  | None => None
  end.

Definition EFAULT : Z := 14.

(** [fopen(filename, "r")]: the path is read through the pointer.  On
    failure [errno] receives the error number, [EFAULT] when the pointer
    leads to no string. *)

Definition fopen (E : env) (filename : ptr) (w : world) : ptr * world :=
  match c_string w filename with
  | Some path =>
      match fopen_result E path with
      | inl e => (None, set_errno e w)
      | inr content =>
          (Some (fresh_handle (files w)),
           set_files (<[fresh_handle (files w) := content]> (files w)) w)
      end
  | None => (None, set_errno EFAULT w)
  end.

Definition fclose (fp : ptr) (w : world) : world :=
  match fp with
  | Some f => set_files (delete f (files w)) w
  | None => w
  end.

(** [PEM_read_PrivateKey(fp, &x, NULL, NULL)]: when the stream holds a
    private key, [*x] ends up as an [EVP_PKEY] holding it (the object [*x]
    pointed to is reused, a new one is made when [*x] was null); otherwise
    [*x] is left alone.  The answer is the new value of [*x]. *)
Definition pem_body (c : pem_content) : option pkey_body :=
  match c with
  | PEM_garbage => None
  | PEM_ec_key c pub priv => Some (PK_ec c (Some pub) (Some priv))
  | PEM_other_key => Some PK_not_ec
  end.

Definition stream_content (w : world) (fp : ptr) : option pem_content :=
  match fp with
  | Some f => files w !! f
  | None => None
  end.

Definition PEM_read_PrivateKey (ok : bool) (fp x : ptr) (w : world) : ptr * world :=
  match (if ok then stream_content w fp ≫= pem_body else None) with
  | Some b =>
      match x with
      | Some h => (Some h, update h (EVP_PKEY b) w)
      | None => new_object true (EVP_PKEY b) w
      end
  | None => (x, w)
  end.

(** [perror(s)]: the message read through [s], then the description of the
    error number [errno] holds at the time of the call. *)
Definition perror (s : ptr) (w : world) : world :=
  emit (Out_perror (c_string w s) (errno w)) w.

Definition ERR_print_errors_fp : world -> world := emit Out_error_queue.

(** ** The source *)

(** [sgx_ec256_public_t]: two arrays of [SGX_ECP256_KEY_SIZE] bytes. *)
Record sgx_ec256_public_t := { gx : list byte; gy : list byte }.

(** What a call comes to: it returns, or it runs into a library call that
    is undefined on its arguments. *)
Inductive outcome := Returned (r : Z) | Undefined.

(** *** key_load_file (lines 19 to 43) *)

Module lf.
Record frame := { key : ptr; fp : ptr; eckey : ptr (* the cell [*eckey] *) }.
Definition set_key (v : ptr) (f : frame) : frame :=
  {| key := v; fp := fp f; eckey := eckey f |}.
Definition set_fp (v : ptr) (f : frame) : frame :=
  {| key := key f; fp := v; eckey := eckey f |}.
Definition set_eckey (v : ptr) (f : frame) : frame :=
  {| key := key f; fp := fp f; eckey := v |}.
End lf.

Definition key_load_file_code (E : env) (filename : ptr) : M lf.frame outcome outcome :=
  effect (set_error_type e_none) ;;
  key ← call (EVP_PKEY_new (lib_ok E at_load_pkey_new)) ;
  assign (lf.set_key key) ;;
  fp ← call (fopen E filename) ;
  assign (lf.set_fp fp) ;;
  when_ (is_null fp)
    (effect (set_error_type e_system) ;;
     effect (set_ep filename) ;;
     leave (Returned 0)) ;;
  key ← call (PEM_read_PrivateKey (lib_ok E at_load_pem_read) fp key) ;
  assign (lf.set_key key) ;;
  effect (fclose fp) ;;
  ec ← call (EVP_PKEY_get1_EC_KEY key) ;
  match ec with
  | None => leave Undefined
  | Some ec =>
      assign (lf.set_eckey ec) ;;
      when_ (is_null ec)
        (effect (set_error_type e_crypto) ;;
         leave (Returned 0)) ;;
      mret (Returned 1)
  end.

(** The call [key_load_file(&cell, filename)] where [cell] holds [eckey]:
    the outcome, the final content of the cell, and the world. *)
Definition key_load_file (E : env) (eckey filename : ptr) (w : world)
    : (outcome * ptr) * world :=
  let r := key_load_file_code E filename
             ({| lf.key := None; lf.fp := None; lf.eckey := eckey |}, w) in
  ((result (fst r), lf.eckey (fst (snd r))), snd (snd r)).

(** *** key_from_sgx_ec256 (lines 45 to 85) *)

Module sgx.
Record frame := { key : ptr; gx : ptr; gy : ptr }.
Definition set_key (v : ptr) (f : frame) : frame :=
  {| key := v; gx := gx f; gy := gy f |}.
Definition set_gx (v : ptr) (f : frame) : frame :=
  {| key := key f; gx := v; gy := gy f |}.
Definition set_gy (v : ptr) (f : frame) : frame :=
  {| key := key f; gx := gx f; gy := v |}.
Definition init : frame := {| key := None; gx := None; gy := None |}.
End sgx.

(** The recurring [{ error_type= e_crypto; goto cleanup; }]. *)
Definition fail_crypto {F} : M F unit unit :=
  effect (set_error_type e_crypto) ;; leave tt.

Definition key_from_sgx_ec256_block (E : env) (k : sgx_ec256_public_t)
    : M sgx.frame unit unit :=
  gx ← call (BN_lebin2bn (lib_ok E at_sgx_gx) (gx k) 32) ;
  assign (sgx.set_gx gx) ;;
  when_ (is_null gx) fail_crypto ;;
  gy ← call (BN_lebin2bn (lib_ok E at_sgx_gy) (gy k) 32) ;
  assign (sgx.set_gy gy) ;;
  when_ (is_null gy) fail_crypto ;;
  key ← call (EC_KEY_new_by_curve_name (lib_ok E at_sgx_key_new) NID_X9_62_prime256v1) ;
  assign (sgx.set_key key) ;;
  when_ (is_null key) fail_crypto ;;
  ok ← call (EC_KEY_set_public_key_affine_coordinates
               (lib_ok E at_sgx_set_pub) key gx gy) ;
  when_ (c_not ok)
    (effect (EC_KEY_free key) ;;
     assign (sgx.set_key None) ;;
     effect (set_error_type e_crypto) ;;
     leave tt).

Definition key_from_sgx_ec256_cleanup : M sgx.frame ptr ptr :=
  gy ← read sgx.gy ;
  when_ (negb (is_null gy)) (effect (BN_free gy)) ;;
  gx ← read sgx.gx ;
  when_ (negb (is_null gx)) (effect (BN_free gx)) ;;
  read sgx.key.

Definition key_from_sgx_ec256 (E : env) (k : sgx_ec256_public_t) (w : world)
    : ptr * world :=
  let r := (effect (set_error_type e_none) ;;
            at_label (key_from_sgx_ec256_block E k) key_from_sgx_ec256_cleanup)
             (sgx.init, w) in
  (result (fst r), snd (snd r)).

(** *** key_shared_secret (lines 89 to 206) *)

Module ss.
Record frame := {
  pctx : ptr; kctx : ptr; sctx : ptr;
  params : ptr; key : ptr; g_a : ptr;
  secret : ptr;
  slen : Z    (* the cell [*slen] *)
}.
Definition set_pctx (v : ptr) (f : frame) : frame :=
  {| pctx := v; kctx := kctx f; sctx := sctx f; params := params f;
     key := key f; g_a := g_a f; secret := secret f; slen := slen f |}.
Definition set_kctx (v : ptr) (f : frame) : frame :=
  {| pctx := pctx f; kctx := v; sctx := sctx f; params := params f;
     key := key f; g_a := g_a f; secret := secret f; slen := slen f |}.
Definition set_sctx (v : ptr) (f : frame) : frame :=
  {| pctx := pctx f; kctx := kctx f; sctx := v; params := params f;
     key := key f; g_a := g_a f; secret := secret f; slen := slen f |}.
Definition set_params (v : ptr) (f : frame) : frame :=
  {| pctx := pctx f; kctx := kctx f; sctx := sctx f; params := v;
     key := key f; g_a := g_a f; secret := secret f; slen := slen f |}.
Definition set_key (v : ptr) (f : frame) : frame :=
  {| pctx := pctx f; kctx := kctx f; sctx := sctx f; params := params f;
     key := v; g_a := g_a f; secret := secret f; slen := slen f |}.
Definition set_g_a (v : ptr) (f : frame) : frame :=
  {| pctx := pctx f; kctx := kctx f; sctx := sctx f; params := params f;
     key := key f; g_a := v; secret := secret f; slen := slen f |}.
Definition set_secret (v : ptr) (f : frame) : frame :=
  {| pctx := pctx f; kctx := kctx f; sctx := sctx f; params := params f;
     key := key f; g_a := g_a f; secret := v; slen := slen f |}.
Definition set_slen (v : Z) (f : frame) : frame :=
  {| pctx := pctx f; kctx := kctx f; sctx := sctx f; params := params f;
     key := key f; g_a := g_a f; secret := secret f; slen := v |}.
Definition init (n : Z) : frame :=
  {| pctx := None; kctx := None; sctx := None; params := None;
     key := None; g_a := None; secret := None; slen := n |}.
End ss.

Definition key_shared_secret_block (E : env) (ec_g_a : ptr) : M ss.frame unit unit :=
  (* Set up the parameter context *)
  pctx ← call (EVP_PKEY_CTX_new_id (lib_ok E at_ss_pctx_new)) ;
  assign (ss.set_pctx pctx) ;;
  when_ (is_null pctx) fail_crypto ;;
  (* Generate parameters for the P-256 curve *)
  ok ← call (EVP_PKEY_paramgen_init (lib_ok E at_ss_paramgen_init) pctx) ;
  when_ (c_not ok) fail_crypto ;;
  ok ← call (EVP_PKEY_CTX_set_ec_paramgen_curve_nid
               (lib_ok E at_ss_set_curve) pctx NID_X9_62_prime256v1) ;
  when_ (c_not ok) fail_crypto ;;
  r ← call (EVP_PKEY_paramgen (lib_ok E at_ss_paramgen) pctx) ;
  assign (ss.set_params (snd r)) ;;
  when_ (c_not (fst r)) fail_crypto ;;
  (* Generate the key *)
  params ← read ss.params ;
  kctx ← call (EVP_PKEY_CTX_new (lib_ok E at_ss_kctx_new) params) ;
  assign (ss.set_kctx kctx) ;;
  when_ (is_null kctx) fail_crypto ;;
  ok ← call (EVP_PKEY_keygen_init (lib_ok E at_ss_keygen_init) kctx) ;
  when_ (c_not ok) fail_crypto ;;
  r ← call (EVP_PKEY_keygen E (lib_ok E at_ss_keygen) kctx) ;
  assign (ss.set_key (snd r)) ;;
  when_ (c_not (fst r)) fail_crypto ;;
  (* Get the peer key as an EVP_PKEY object *)
  g_a ← call (EVP_PKEY_new (lib_ok E at_ss_peer_new)) ;
  assign (ss.set_g_a g_a) ;;
  when_ (is_null g_a) fail_crypto ;;
  ok ← call (EVP_PKEY_set1_EC_KEY (lib_ok E at_ss_set1) g_a ec_g_a) ;
  when_ (c_not ok) fail_crypto ;;
  (* Set up the shared secret derivation *)
  key ← read ss.key ;
  sctx ← call (EVP_PKEY_CTX_new (lib_ok E at_ss_sctx_new) key) ;
  assign (ss.set_sctx sctx) ;;
  when_ (is_null sctx) fail_crypto ;;
  ok ← call (EVP_PKEY_derive_init (lib_ok E at_ss_derive_init) sctx) ;
  when_ (c_not ok) fail_crypto ;;
  ok ← call (EVP_PKEY_derive_set_peer (lib_ok E at_ss_set_peer) sctx g_a) ;
  when_ (c_not ok) fail_crypto ;;
  (* Get the secret length *)
  slen ← read ss.slen ;
  r ← call (EVP_PKEY_derive E (lib_ok E at_ss_derive_len) sctx None slen) ;
  assign (ss.set_slen (snd r)) ;;
  when_ (c_not (fst r)) fail_crypto ;;
  slen ← read ss.slen ;
  effect (emit (Out_slen slen)) ;;
  secret ← call (OPENSSL_malloc (lib_ok E at_ss_malloc) slen) ;
  assign (ss.set_secret secret) ;;
  when_ (is_null secret) fail_crypto ;;
  effect (emit (Out_secret secret)) ;;
  r ← call (EVP_PKEY_derive E (lib_ok E at_ss_derive) sctx secret slen) ;
  assign (ss.set_slen (snd r)) ;;
  when_ (c_not (fst r))
    (effect (set_error_type e_crypto) ;;
     effect (OPENSSL_free secret) ;;
     assign (ss.set_secret None)).

Definition key_shared_secret_cleanup : M ss.frame ptr ptr :=
  sctx ← read ss.sctx ;
  when_ (negb (is_null sctx)) (effect (EVP_PKEY_CTX_free sctx)) ;;
  g_a ← read ss.g_a ;
  when_ (negb (is_null g_a)) (effect (EVP_PKEY_free g_a)) ;;
  key ← read ss.key ;
  when_ (negb (is_null key)) (effect (EVP_PKEY_free key)) ;;
  kctx ← read ss.kctx ;
  when_ (negb (is_null kctx)) (effect (EVP_PKEY_CTX_free kctx)) ;;
  params ← read ss.params ;
  when_ (negb (is_null params)) (effect (EVP_PKEY_free params)) ;;
  pctx ← read ss.pctx ;
  when_ (negb (is_null pctx)) (effect (EVP_PKEY_CTX_free pctx)) ;;
  read ss.secret.

(** The call [key_shared_secret(ec_g_a, &cell)] where [cell] holds [slen]:
    the pointer returned, the final content of the cell, and the world. *)
Definition key_shared_secret (E : env) (ec_g_a : ptr) (slen : Z) (w : world)
    : (ptr * Z) * world :=
  let r := (assign (ss.set_slen 0) ;;
            effect (set_error_type e_none) ;;
            at_label (key_shared_secret_block E ec_g_a) key_shared_secret_cleanup)
             (ss.init slen, w) in
  ((result (fst r), ss.slen (fst (snd r))), snd (snd r)).

(** *** key_perror (lines 210 to 216) *)

Definition newline : string := String (Ascii.ascii_of_nat 10) EmptyString.

Definition key_perror (prefix : string) (w : world) : world :=
  let w1 := emit (Out_text (prefix +:+ ": ")) w in
  if decide (error_type w1 = e_none) then emit (Out_text ("no error" +:+ newline)) w1
  else if decide (error_type w1 = e_system) then perror (ep w1) w1
  else if decide (error_type w1 = e_crypto) then ERR_print_errors_fp w1
  else w1.

(** * What the theorems are stated with *)

(** ** A weakest precondition for bodies *)

Definition wp {F R A} (m : M F R A) (Q : flow R A -> F -> world -> Prop)
    (f : F) (w : world) : Prop :=
  Q (m (f, w)).1 (m (f, w)).2.1 (m (f, w)).2.2.

(** ** key_from_sgx_ec256 *)

(** The coordinates the function decodes from its argument. *)
Definition decoded (k : sgx_ec256_public_t) : Z * Z :=
  (le_value (take 32 (gx k)), le_value (take 32 (gy k))).

(** The library had the resources for the four calls of the function. *)
Definition sgx_lib_ok (E : env) : bool :=
  lib_ok E at_sgx_gx && lib_ok E at_sgx_gy &&
  lib_ok E at_sgx_key_new && lib_ok E at_sgx_set_pub.

(** The two ways the function ends, with the world it leaves. *)
Inductive sgx_post (E : env) (k : sgx_ec256_public_t) (w : world) : ptr -> world -> Prop :=
| sgx_built h :
    sgx_lib_ok E = true ->
    valid_public_point prime256v1 (decoded k).1 (decoded k).2 = true ->
    heap w !! h = None ->
    sgx_post E k w (Some h)
      {| error_type := e_none; ep := ep w;
         stores := stores w ++ [Store_error_type e_none];
         errno := errno w;
         heap := <[h := EC_KEY prime256v1 (Some (decoded k)) None]> (heap w);
         files := files w; strings := strings w; stderr := stderr w;
         draws := draws w |}
| sgx_refused :
    sgx_lib_ok E && valid_public_point prime256v1 (decoded k).1 (decoded k).2 = false ->
    sgx_post E k w None
      {| error_type := e_crypto; ep := ep w;
         stores := stores w ++ [Store_error_type e_none; Store_error_type e_crypto];
         errno := errno w; heap := heap w;
         files := files w; strings := strings w; stderr := stderr w;
         draws := draws w |}.

(** ** key_shared_secret *)

(** The library calls of the function, in the order the source makes
    them. *)
Definition ss_sites : list site :=
  [at_ss_pctx_new; at_ss_paramgen_init; at_ss_set_curve; at_ss_paramgen;
   at_ss_kctx_new; at_ss_keygen_init; at_ss_keygen; at_ss_peer_new;
   at_ss_set1; at_ss_sctx_new; at_ss_derive_init; at_ss_set_peer;
   at_ss_derive_len; at_ss_malloc; at_ss_derive].

(** What the peer handle points to, when it is a key object. *)
Definition peer_key (w : world) (p : ptr) : option (curve * option (Z * Z)) :=
  match deref w p with
  | Some (_, EC_KEY c pub _) => Some (c, pub)
  | _ => None
  end.

(** A step passes when the library has the resources for it and, where the
    step reads the peer key, the key suits: [EVP_PKEY_set1_EC_KEY] needs a
    key object; the length query needs a peer installed, which takes a peer
    on the curve of the generated key (line 172 lets the status -1 of a
    refused peer through); the derivation needs the public point. *)
Definition step_passes (E : env) (p : ptr) (w : world) (s : site) : bool :=
  lib_ok E s &&
  match s with
  | at_ss_set1 => negb (is_null (peer_key w p))
  | at_ss_derive_len =>
      match peer_key w p with
      | Some (c, _) => curve_eqb NID_X9_62_prime256v1 c
      | None => false
      end
  | at_ss_derive => negb (is_null (peer_key w p ≫= snd))
  | _ => true
  end.

(** The first step of the function that fails. *)
Definition ss_first_failure (E : env) (p : ptr) (w : world) : option site :=
  List.find (fun s => negb (step_passes E p w s)) ss_sites.

(** The value left in [*slen], the lines printed and the number of key
    pairs drawn, by the step that failed. *)
Definition ss_slen_after (s : site) : Z :=
  match s with
  | at_ss_malloc | at_ss_derive => 32
  | _ => 0
  end.

Definition ss_printed (s : site) (out : list output) : Prop :=
  match s with
  | at_ss_malloc => out = [Out_slen 32]
  | at_ss_derive => exists b, out = [Out_slen 32; Out_secret (Some b)]
  | _ => out = []
  end.

Definition ss_draws (s : site) (n : nat) : nat :=
  match s with
  | at_ss_pctx_new | at_ss_paramgen_init | at_ss_set_curve | at_ss_paramgen
  | at_ss_kctx_new | at_ss_keygen_init | at_ss_keygen => n
  | _ => S n
  end.

Inductive ss_post (E : env) (p : ptr) (w : world) : ptr -> Z -> world -> Prop :=
| ss_derived h Q :
    ss_first_failure E p w = None ->
    peer_key w p = Some (NID_X9_62_prime256v1, Some Q) ->
    heap w !! h = None ->
    ss_post E p w (Some h) 32
      {| error_type := e_none; ep := ep w;
         stores := stores w ++ [Store_error_type e_none];
         errno := errno w;
         heap := <[h := BUFFER 32 (be_bytes 32 (ecdh_x E (entropy E (draws w)) Q))]> (heap w);
         files := files w; strings := strings w;
         stderr := stderr w ++ [Out_slen 32; Out_secret (Some h)];
         draws := S (draws w) |}
| ss_failed s out :
    ss_first_failure E p w = Some s ->
    ss_printed s out ->
    ss_post E p w None (ss_slen_after s)
      {| error_type := e_crypto; ep := ep w;
         stores := stores w ++ [Store_error_type e_none; Store_error_type e_crypto];
         errno := errno w; heap := heap w;
         files := files w; strings := strings w;
         stderr := stderr w ++ out;
         draws := ss_draws s (draws w) |}.

(** ** key_load_file *)

(** What [fopen] answers for the path behind [filename]: an error number,
    or the content of the file. *)
Definition opened (E : env) (w : world) (filename : ptr) : Z + pem_content :=
  match c_string w filename with
  | Some path => fopen_result E path
  | None => inl EFAULT
  end.

(** What the parser makes of the file, when it has the resources. *)
Definition parsed (E : env) (content : pem_content) : option pkey_body :=
  if lib_ok E at_load_pem_read then pem_body content else None.

Definition lf_post (E : env) (eckey filename : ptr) (w : world)
    (o : outcome) (eckey' : ptr) (w' : world) : Prop :=
  files w' = files w /\ strings w' = strings w /\
  stderr w' = stderr w /\ draws w' = draws w /\
  match opened E w filename with
  | inl e =>
      o = Returned 0 /\ eckey' = eckey /\
      error_type w' = e_system /\ ep w' = filename /\ errno w' = e /\
      stores w' = stores w ++ [Store_error_type e_none; Store_error_type e_system;
                                Store_ep filename]
  | inr content =>
      ep w' = ep w /\ errno w' = errno w /\
      match parsed E content with
      | Some (PK_ec c pub priv) =>
          exists h, o = Returned 1 /\ eckey' = Some h /\
            heap w !! h = None /\ heap w' !! h = Some (EC_KEY c pub priv) /\
            error_type w' = e_none /\
            stores w' = stores w ++ [Store_error_type e_none]
      | Some _ =>
          o = Returned 0 /\ eckey' = None /\ error_type w' = e_crypto /\
          stores w' = stores w ++ [Store_error_type e_none; Store_error_type e_crypto]
      | None =>
          if lib_ok E at_load_pkey_new
          then o = Returned 0 /\ eckey' = None /\ error_type w' = e_crypto /\
               stores w' = stores w ++ [Store_error_type e_none; Store_error_type e_crypto]
          else o = Undefined
      end
  end.

(** ** A concrete environment

    The arithmetic of the curves, written out naively, gives an environment
    to run the functions in. *)

Definition inv_mod (m a : Z) : Z := Zpow_mod (a mod m) (m - 2) m.

Definition generator (c : curve) : Z * Z :=
  match c with
  | prime256v1 => (P256_Gx, P256_Gy)
  | secp384r1 =>
      (0xaa87ca22be8b05378eb1c71ef320ad746e1d3b628ba79b9859f741e082542a385502f25dbf55296c3a545e3872760ab7,
       0x3617de4a96262c6f5d9e98bf9292dc29f8f41dbd289a147ce9da3113b5f0b8c00a60b1ce1d7e819d7a431d7c90ea0e5f)
  | secp256k1 =>
      (0x79be667ef9dcbbac55a06295ce870b07029bfcdb2dce28d959f2815b16f81798,
       0x483ada7726a3c4655da4fbfc0e1108a8fd17b448a68554199c47d08ffb10d4b8)
  end.

(** Addition of affine points; [None] is the point at infinity. *)
Definition ec_add (c : curve) (P Q : option (Z * Z)) : option (Z * Z) :=
  let m := field_p (params_of c) in
  match P, Q with
  | None, _ => Q
  | _, None => P
  | Some (x1, y1), Some (x2, y2) =>
      if (x1 =? x2) && ((y1 + y2) mod m =? 0) then None
      else
        let l := if x1 =? x2
                 then (3 * x1 * x1 + coef_a (params_of c)) * inv_mod m (2 * y1) mod m
                 else (y2 - y1) * inv_mod m (x2 - x1) mod m in
        let x3 := (l * l - x1 - x2) mod m in
        Some (x3, (l * (x1 - x3) - y1) mod m)
  end.

Fixpoint ec_mul_pos (c : curve) (d : positive) (P : option (Z * Z)) : option (Z * Z) :=
  match d with
  | xH => P
  | xO d' => let R := ec_mul_pos c d' P in ec_add c R R
  | xI d' => let R := ec_mul_pos c d' P in ec_add c P (ec_add c R R)
  end.

Definition ec_mul (c : curve) (d : Z) (P : Z * Z) : Z * Z :=
  match d with
  | Zpos d' => default (0, 0) (ec_mul_pos c d' (Some P))
  | _ => (0, 0)
  end.

Definition ENOENT : Z := 2.
Definition EACCES : Z := 13.

(** Two files: a private key on P-384 and a path that does not exist. *)
Definition env_ok : env :=
  {| lib_ok := fun _ => true;
     fopen_result := fun path =>
       if String.eqb path "p384.pem"
       then inr (PEM_ec_key secp384r1 (generator secp384r1) 1)
       else inl ENOENT;
     entropy := fun n => Z.of_nat n + 1;
     scalar_base := fun c d => ec_mul c d (generator c);
     ecdh_x := fun d Q => (ec_mul prime256v1 d Q).1 |}.

(** The same with no resources left at one site. *)
Definition env_failing_at (s : site) : env :=
  {| lib_ok := fun s' => negb (bool_decide (s' = s));
     fopen_result := fopen_result env_ok;
     entropy := entropy env_ok;
     scalar_base := scalar_base env_ok;
     ecdh_x := ecdh_x env_ok |}.

Definition world0 : world :=
  {| error_type := e_none; ep := None; stores := []; errno := 0;
     heap := ∅; files := ∅;
     strings := <[1%nat := "p384.pem"]> (<[2%nat := "missing.pem"]> ∅);
     stderr := []; draws := 0 |}.

(** The wire encoding of a point. *)
Definition wire (x y : Z) : sgx_ec256_public_t :=
  {| gx := le_bytes SGX_ECP256_KEY_SIZE x; gy := le_bytes SGX_ECP256_KEY_SIZE y |}.

(** A peer key to derive against: the generator of P-256, as
    [key_from_sgx_ec256] builds it. *)
Definition peer0 : ptr := (key_from_sgx_ec256 env_ok (wire P256_Gx P256_Gy) world0).1.
Definition world1 : world := (key_from_sgx_ec256 env_ok (wire P256_Gx P256_Gy) world0).2.

(** ** The error record *)

(** The kinds, and the context pointers, assigned by a run of stores. *)
Definition kind_writes (l : list store) : list _error_type :=
  omap (fun s => match s with Store_error_type k => Some k | Store_ep _ => None end) l.

Definition ep_writes (l : list store) : list ptr :=
  omap (fun s => match s with Store_ep a => Some a | Store_error_type _ => None end) l.

(** What an operation does to the error kind between the worlds [w] and
    [w']: it first assigns [e_none]; after that it assigns the kind once,
    to a kind other than [e_none], when it fails, and not at all when it
    succeeds.  [l] is what it stored after the first assignment. *)
Definition kind_protocol (failed : bool) (w w' : world) (l : list store) : Prop :=
  stores w' = stores w ++ Store_error_type e_none :: l /\
  kind_writes l = (if failed then [error_type w'] else []) /\
  (if failed then error_type w' <> e_none else error_type w' = e_none).

(** The context pointer is not touched. *)
Definition ep_untouched (w w' : world) (l : list store) : Prop :=
  ep_writes l = [] /\ ep w' = ep w.

(** ** The generated key *)

(** The key pair [key_shared_secret] generates is on P-256: at the label
    [cleanup], whenever the variable [key] is not null it points to a key
    pair on that curve. *)
Definition ephemeral_on_P256 (f : ss.frame) (w : world) : Prop :=
  match ss.key f with
  | Some k => exists pub d, heap w !! k = Some (EVP_PKEY (PK_ec NID_X9_62_prime256v1 (Some pub) (Some d)))
  | None => True
  end.

(** ** Between a failure and its report *)

(** What code running between a failure and its report may do to the state
    the report reads: a system call leaves an error number in [errno]; the
    caller overwrites the memory a path was in. *)
Inductive interference :=
| Sets_errno (e : Z)
| Overwrites_string (a : nat) (s : string).

Definition interfere (w : world) (i : interference) : world :=
  match i with
  | Sets_errno e => set_errno e w
  | Overwrites_string a s => set_strings (<[a := s]> (strings w)) w
  end.

Definition interfere_all (l : list interference) (w : world) : world :=
  fold_left interfere l w.

(** ** Acceptance and what is left behind *)

(** The peer handle points to a key on P-256 that has a public point. *)
Definition peer_suits (w : world) (p : ptr) : bool :=
  match peer_key w p with
  | Some (c, Some _) => curve_eqb NID_X9_62_prime256v1 c
  | _ => false
  end.

(** The library calls of [key_shared_secret] up to the generation of the
    key pair (lines 105 to 141). *)
Definition ss_keygen_sites : list site :=
  [at_ss_pctx_new; at_ss_paramgen_init; at_ss_set_curve; at_ss_paramgen;
   at_ss_kctx_new; at_ss_keygen_init; at_ss_keygen].

(** The heap [key_load_file] leaves when the parser put no key into the
    object of line 26: that object, empty, when the library had the
    resources to make it. *)
Definition lf_heap_unparsed (E : env) (w w' : world) : Prop :=
  if lib_ok E at_load_pkey_new
  then exists k, heap w !! k = None /\ heap w' = <[k := EVP_PKEY PK_none]> (heap w)
  else heap w' = heap w.

(** The heap [key_load_file] leaves, by what [fopen] and the parser
    answer: the function frees nothing. *)
Definition lf_heap (E : env) (filename : ptr) (w : world) (eckey' : ptr) (w' : world) : Prop :=
  match opened E w filename with
  | inl _ => lf_heap_unparsed E w w'
  | inr content =>
      match parsed E content with
      | Some (PK_ec c pub priv) =>
          exists k h, h <> k /\ heap w !! k = None /\ heap w !! h = None /\
            eckey' = Some h /\
            heap w' = <[h := EC_KEY c pub priv]>
                        (<[k := EVP_PKEY (PK_ec c pub priv)]> (heap w))
      | Some b =>
          exists k, heap w !! k = None /\ heap w' = <[k := EVP_PKEY b]> (heap w)
      | None => lf_heap_unparsed E w w'
      end
  end.

(** * Proofs *)

(** ** The encodings *)

Lemma byte_val_range b : 0 <= byte_val b < 256.
Proof.
  unfold byte_val. pose proof (Byte.to_N_bounded b). lia.
Qed.

Lemma byte_val_of_Z z : byte_val (byte_of_Z z) = z mod 256.
Proof.
  unfold byte_val, byte_of_Z.
  assert (Hr : 0 <= z mod 256 < 256) by (apply Z.mod_pos_bound; lia).
  destruct (Byte.of_N (Z.to_N (z mod 256))) as [b|] eqn:Hb; simpl.
  - apply Byte.to_of_N in Hb. rewrite Hb. lia.
  - apply Byte.of_N_None_iff in Hb. lia.
Qed.

Lemma length_le_bytes n x : length (le_bytes n x) = n.
Proof. revert x. induction n as [|n IH]; intros x; simpl; [done | by rewrite IH]. Qed.

Lemma le_value_le_bytes n x : le_value (le_bytes n x) = x mod 256 ^ Z.of_nat n.
Proof.
  revert x. induction n as [|n IH]; intros x.
  - simpl. by rewrite Z.mod_1_r.
  - cbn [le_bytes le_value]. rewrite byte_val_of_Z, IH.
    rewrite Nat2Z.inj_succ, Z.pow_succ_r by lia.
    rewrite Z.rem_mul_r by lia. done.
Qed.

(** Decoding what was encoded gives the number back, when it fits. *)
Lemma le_roundtrip n x :
  0 <= x < 256 ^ Z.of_nat n -> le_value (take n (le_bytes n x)) = x.
Proof.
  intros Hx. rewrite take_ge by (rewrite length_le_bytes; lia).
  rewrite le_value_le_bytes. by apply Z.mod_small.
Qed.

Lemma length_be_bytes n x : length (be_bytes n x) = n.
Proof. unfold be_bytes. by rewrite length_rev, length_le_bytes. Qed.

(** ** Handles *)

Lemma fresh_handle_None {A} (m : gmap nat A) : m !! fresh_handle m = None.
Proof.
  apply not_elem_of_dom. intros H.
  apply elem_of_elements, max_list_elem_of_le in H.
  unfold fresh_handle in H. lia.
Qed.

(** ** Rules of the weakest precondition *)

Section wp_rules.
Context {F R : Type}.
Implicit Types (f : F) (w : world).

Lemma wp_bind {A B} (m : M F R A) (k : A -> M F R B) Q f w :
  wp m (fun fl f' w' =>
          match fl with
          | Next a => wp (k a) Q f' w'
          | Exit r => Q (Exit r) f' w'
          end) f w ->
  wp (m ≫= k) Q f w.
Proof.
  unfold wp, mbind, M_bind.
  destruct (m (f, w)) as [[a|r] [f' w']]; simpl; auto.
Qed.

Lemma wp_ret {A} (a : A) (Q : flow R A -> F -> world -> Prop) f w :
  Q (Next a) f w -> wp (mret a) Q f w.
Proof. done. Qed.

Lemma wp_effect (g : world -> world) (Q : flow R unit -> F -> world -> Prop) f w :
  Q (Next tt) f (g w) -> wp (effect g) Q f w.
Proof. done. Qed.

Lemma wp_assign (upd : F -> F) (Q : flow R unit -> F -> world -> Prop) f w :
  Q (Next tt) (upd f) w -> wp (assign upd) Q f w.
Proof. done. Qed.

Lemma wp_read {A} (proj : F -> A) (Q : flow R A -> F -> world -> Prop) f w :
  Q (Next (proj f)) f w -> wp (read proj) Q f w.
Proof. done. Qed.

Lemma wp_leave {A} (r : R) (Q : flow R A -> F -> world -> Prop) f w :
  Q (Exit r) f w -> wp (leave r) Q f w.
Proof. done. Qed.

Lemma wp_call {A} (g : world -> A * world) (Q : flow R A -> F -> world -> Prop) f w :
  Q (Next (g w).1) f (g w).2 -> wp (call g) Q f w.
Proof. done. Qed.

Lemma wp_when_true (m : M F R unit) Q f w :
  wp m Q f w -> wp (when_ true m) Q f w.
Proof. done. Qed.

Lemma wp_when_false (m : M F R unit) (Q : flow R unit -> F -> world -> Prop) f w :
  Q (Next tt) f w -> wp (when_ false m) Q f w.
Proof. done. Qed.

Lemma wp_at_label {A} (block : M F unit unit) (rest : M F R A) Q f w :
  wp block (fun _ f' w' => wp rest Q f' w') f w ->
  wp (at_label block rest) Q f w.
Proof.
  unfold wp, at_label. by destruct (block (f, w)) as [? [? ?]].
Qed.
End wp_rules.

Lemma wp_fail_crypto {F} (Q : flow unit unit -> F -> world -> Prop) f w :
  Q (Exit tt) f (set_error_type e_crypto w) -> wp fail_crypto Q f w.
Proof. done. Qed.

(** Allocation: the new handle is one the heap does not use. *)
Lemma wp_new_object {F R} ok o (Q : flow R ptr -> F -> world -> Prop) f w :
  (ok = true -> forall h, heap w !! h = None ->
     Q (Next (Some h)) f (set_heap (<[h := o]> (heap w)) w)) ->
  (ok = false -> Q (Next None) f w) ->
  wp (call (new_object ok o)) Q f w.
Proof.
  intros Hs Hf. apply wp_call. unfold new_object. destruct ok; simpl.
  - apply Hs; [done | apply fresh_handle_None].
  - by apply Hf.
Qed.

Ltac norm :=
  cbn [set_error_type set_ep set_errno set_heap set_files set_strings emit set_draws
       error_type ep stores errno heap files strings stderr draws
       release update free_object deref fclose stream_content c_string pem_body
       BN_free EC_KEY_free EVP_PKEY_free EVP_PKEY_CTX_free OPENSSL_free
       is_null negb fst snd default from_option id andb
       status c_not Z.eqb curve_eqb same_parameters
       sgx.init sgx.set_key sgx.set_gx sgx.set_gy sgx.key sgx.gx sgx.gy
       lf.set_key lf.set_fp lf.set_eckey lf.key lf.fp lf.eckey
       ss.init ss.set_pctx ss.set_kctx ss.set_sctx ss.set_params ss.set_key
       ss.set_g_a ss.set_secret ss.set_slen
       ss.pctx ss.kctx ss.sctx ss.params ss.key ss.g_a ss.secret ss.slen].

Ltac norm_in H :=
  cbn [set_error_type set_ep set_errno set_heap set_files set_strings emit set_draws
       error_type ep stores errno heap files strings stderr draws
       release update free_object deref fclose stream_content c_string pem_body
       BN_free EC_KEY_free EVP_PKEY_free EVP_PKEY_CTX_free OPENSSL_free
       is_null negb fst snd default from_option id andb
       status c_not Z.eqb curve_eqb same_parameters
       sgx.init sgx.set_key sgx.set_gx sgx.set_gy sgx.key sgx.gx sgx.gy
       lf.set_key lf.set_fp lf.set_eckey lf.key lf.fp lf.eckey
       ss.init ss.set_pctx ss.set_kctx ss.set_sctx ss.set_params ss.set_key
       ss.set_g_a ss.set_secret ss.set_slen
       ss.pctx ss.kctx ss.sctx ss.params ss.key ss.g_a ss.secret ss.slen] in H.

(** Facts a fresh handle brings: it differs from every handle inserted so
    far, and the initial heap does not use it. *)
Ltac fresh_facts H :=
  repeat (let H' := fresh "Hne" in
          apply lookup_insert_None in H as [H H']).

Ltac wp_step :=
  lazymatch goal with
  | |- wp (mbind _ _) _ _ _ => apply wp_bind
  | |- wp (effect _) _ _ _ => apply wp_effect; norm
  | |- wp (assign _) _ _ _ => apply wp_assign; norm
  | |- wp (read _) _ _ _ => apply wp_read; norm
  | |- wp (leave _) _ _ _ => apply wp_leave
  | |- wp (mret _) _ _ _ => apply wp_ret
  | |- wp fail_crypto _ _ _ => apply wp_fail_crypto; norm
  | |- wp (when_ true _) _ _ _ => apply wp_when_true
  | |- wp (when_ false _) _ _ _ => apply wp_when_false
  | |- wp (at_label _ _) _ _ _ => apply wp_at_label
  | |- wp (call (new_object _ _)) _ _ _ =>
      let Hok := fresh "Hok" in let h := fresh "h" in let Hh := fresh "Hh" in
      apply wp_new_object; [intros Hok h Hh; norm_in Hh; fresh_facts Hh; norm | intros Hok; norm]
  end.

Ltac wp_steps := repeat wp_step.

(** Lookups in a heap built by insertions at handles known to differ. *)
Ltac heap_lookups :=
  repeat first
    [ rewrite lookup_insert_eq
    | rewrite lookup_insert_ne by done
    | match goal with
      | H : ?m !! ?e = Some _ |- context [?m !! ?e] => rewrite H
      end ].

(** A call whose answer depends on what the handles point to. *)
Ltac wp_lib f :=
  apply wp_call; unfold f; norm; heap_lookups; norm;
  try match goal with
      | |- context [if ?c then _ else _] => destruct c eqn:?; norm
      end.

(** Once every handle is known: a goal on maps built from insertions and
    deletions is settled key by key. *)
Ltac map_simpl :=
  repeat first
    [ rewrite insert_insert_eq
    | rewrite delete_insert_eq
    | rewrite delete_insert_ne by done
    | match goal with
      | H : ?m !! ?i = None |- context [delete ?i ?m] => rewrite (delete_id m i H)
      end ].

Ltac map_crush :=
  apply map_eq; intros ?;
  repeat first [rewrite lookup_delete | rewrite lookup_insert];
  repeat case_decide; simplify_eq; done.

(** ** Summary of key_from_sgx_ec256 *)

(** Equality of two worlds, field by field. *)
Ltac open_world :=
  repeat match goal with w : world |- _ => destruct w end;
  cbn [error_type ep stores errno heap files strings stderr draws] in *.

Ltac world_eq :=
  open_world;
  cbv beta iota delta
    [release update set_error_type set_ep set_errno set_heap set_files
     set_strings emit set_draws
     error_type ep stores errno heap files strings stderr draws];
  f_equal; first [done | by rewrite <- ?app_assoc | by map_simpl | map_crush].

Lemma sgx_post_eq E k w r w1 w2 : sgx_post E k w r w1 -> w1 = w2 -> sgx_post E k w r w2.
Proof. by intros H <-. Qed.

Lemma key_from_sgx_ec256_post E k w :
  sgx_post E k w (key_from_sgx_ec256 E k w).1 (key_from_sgx_ec256 E k w).2.
Proof.
  unfold key_from_sgx_ec256.
  change (wp (effect (set_error_type e_none) ;;
              at_label (key_from_sgx_ec256_block E k) key_from_sgx_ec256_cleanup)
            (fun fl _ w' => sgx_post E k w (result fl) w') sgx.init w).
  unfold key_from_sgx_ec256_block, key_from_sgx_ec256_cleanup,
    BN_lebin2bn, EC_KEY_new_by_curve_name.
  wp_steps.
  - wp_lib EC_KEY_set_public_key_affine_coordinates; wp_steps; cbn [result].
    + apply andb_true_iff in Heqb as [Hok2 Hv].
      eapply sgx_post_eq.
      * apply (sgx_built E k w h1); [|done..].
        unfold sgx_lib_ok. by rewrite Hok, Hok0, Hok1, Hok2.
      * unfold decoded. world_eq.
    + eapply sgx_post_eq.
      * apply sgx_refused. unfold sgx_lib_ok. by rewrite Hok, Hok0, Hok1.
      * world_eq.
  - cbn [result]. eapply sgx_post_eq.
    + apply sgx_refused. unfold sgx_lib_ok. by rewrite Hok, Hok0, Hok1.
    + world_eq.
  - cbn [result]. eapply sgx_post_eq.
    + apply sgx_refused. unfold sgx_lib_ok. by rewrite Hok, Hok0.
    + world_eq.
  - cbn [result]. eapply sgx_post_eq.
    + apply sgx_refused. unfold sgx_lib_ok. by rewrite Hok.
    + world_eq.
Qed.

(** ** Summary of key_shared_secret *)

Lemma new_object_cases ok o w :
  (ok = true /\ exists h, heap w !! h = None /\
     new_object ok o w = (Some h, set_heap (<[h := o]> (heap w)) w)) \/
  (ok = false /\ new_object ok o w = (None, w)).
Proof.
  destruct ok; [left | right]; split; try done.
  exists (fresh_handle (heap w)). split; [apply fresh_handle_None | done].
Qed.

Lemma field_bytes_P256 : field_bytes NID_X9_62_prime256v1 = 32.
Proof. reflexivity. Qed.

(** A library call that answers a status: the cases of the verdict at its
    site. *)
Ltac wp_status f s :=
  apply wp_call; try unfold f; norm; heap_lookups; rewrite ?field_bytes_P256; norm;
  match goal with
  | |- context [lib_ok ?E s] => destruct (lib_ok E s) eqn:?
  end; norm.

(** A library call that allocates after looking at its arguments. *)
Ltac wp_alloc f :=
  apply wp_call; try unfold f; norm; heap_lookups; norm;
  lazymatch goal with
  | |- context [new_object ?ok ?o ?W] =>
      let Hok := fresh "Hok" in let h := fresh "h" in
      let Hh := fresh "Hh" in let Hn := fresh "Hn" in
      destruct (new_object_cases ok o W) as [(Hok & h & Hh & Hn) | (Hok & Hn)];
      rewrite Hn; clear Hn; [norm_in Hh; fresh_facts Hh | ]; norm
  end.

Lemma ss_derived_eq E p w h Q n' w' :
  w' = {| error_type := e_none; ep := ep w;
          stores := stores w ++ [Store_error_type e_none];
          errno := errno w;
          heap := <[h := BUFFER 32 (be_bytes 32 (ecdh_x E (entropy E (draws w)) Q))]> (heap w);
          files := files w; strings := strings w;
          stderr := stderr w ++ [Out_slen 32; Out_secret (Some h)];
          draws := S (draws w) |} ->
  n' = 32 ->
  ss_first_failure E p w = None ->
  peer_key w p = Some (NID_X9_62_prime256v1, Some Q) ->
  heap w !! h = None ->
  ss_post E p w (Some h) n' w'.
Proof. intros -> ->. apply ss_derived. Qed.

Lemma ss_failed_eq E p w s out n' w' :
  w' = {| error_type := e_crypto; ep := ep w;
          stores := stores w ++ [Store_error_type e_none; Store_error_type e_crypto];
          errno := errno w; heap := heap w;
          files := files w; strings := strings w;
          stderr := stderr w ++ out;
          draws := ss_draws s (draws w) |} ->
  n' = ss_slen_after s ->
  ss_first_failure E p w = Some s ->
  ss_printed s out ->
  ss_post E p w None n' w'.
Proof. intros -> ->. apply ss_failed. Qed.

Lemma derive_bytes x :
  take (Z.to_nat (Z.min 32 32)) (be_bytes (Z.to_nat 32) x) = be_bytes 32 x.
Proof.
  change (Z.to_nat (Z.min 32 32)) with 32%nat. change (Z.to_nat 32) with 32%nat.
  apply take_ge. by rewrite length_be_bytes.
Qed.

Ltac first_failure :=
  unfold ss_first_failure, ss_sites; cbn [List.find]; unfold step_passes;
  repeat match goal with
         | H : lib_ok _ _ = _ |- _ => rewrite H; clear H
         | H : peer_key _ _ = _ |- _ => rewrite H; clear H
         end;
  cbn [is_null negb mbind option_bind snd];
  repeat match goal with
         | H : curve_eqb _ _ = _ |- _ => rewrite H; clear H
         end;
  rewrite ?andb_false_r; reflexivity.

(** Equality of two worlds where the right one leaves the lines printed
    open. *)
Ltac world_eq_out :=
  open_world;
  cbv beta iota delta
    [release update set_error_type set_ep set_errno set_heap set_files
     set_strings emit set_draws ss_draws
     error_type ep stores errno heap files strings stderr draws];
  f_equal;
  first [done | by rewrite <- ?app_assoc | by rewrite app_nil_r | by map_simpl | map_crush].

Ltac ss_fail s :=
  cbn [result]; norm;
  change (0 <? 32) with true in *; rewrite ?andb_true_r in *;
  eapply (ss_failed_eq _ _ _ s);
  [world_eq_out | reflexivity | first_failure | cbn [ss_printed]; eauto].

Lemma key_shared_secret_post E p n w :
  ss_post E p w (key_shared_secret E p n w).1.1 (key_shared_secret E p n w).1.2
    (key_shared_secret E p n w).2.
Proof.
  unfold key_shared_secret.
  change (wp (assign (ss.set_slen 0) ;;
              effect (set_error_type e_none) ;;
              at_label (key_shared_secret_block E p) key_shared_secret_cleanup)
            (fun fl f' w' => ss_post E p w (result fl) (ss.slen f') w') (ss.init n) w).
  unfold key_shared_secret_block, key_shared_secret_cleanup,
    EVP_PKEY_CTX_new_id, EVP_PKEY_new, OPENSSL_malloc.
  wp_steps; [| ss_fail at_ss_pctx_new].
  wp_status EVP_PKEY_paramgen_init at_ss_paramgen_init; wp_steps;
    [| ss_fail at_ss_paramgen_init].
  wp_status EVP_PKEY_CTX_set_ec_paramgen_curve_nid at_ss_set_curve; wp_steps;
    [| ss_fail at_ss_set_curve].
  wp_alloc EVP_PKEY_paramgen; wp_steps; [| ss_fail at_ss_paramgen].
  wp_alloc EVP_PKEY_CTX_new; wp_steps; [| ss_fail at_ss_kctx_new].
  wp_status EVP_PKEY_keygen_init at_ss_keygen_init; wp_steps;
    [| ss_fail at_ss_keygen_init].
  wp_alloc EVP_PKEY_keygen; [| wp_steps; ss_fail at_ss_keygen].
  wp_steps; [| ss_fail at_ss_peer_new].
  destruct (peer_key w p) as [[c pub]|] eqn:Hpeer.
  2: { (* the peer handle points to no key object: the call answers 0 *)
    match goal with
    | |- wp (call ?g) _ _ ?W => assert (Hset1 : g W = (0, W))
    end.
    { unfold EVP_PKEY_set1_EC_KEY; norm; heap_lookups.
      destruct p as [e|]; norm; [|done].
      pose proof Hpeer as Hp. unfold peer_key, deref in Hp.
      repeat (rewrite lookup_insert; case_decide; norm; [done|]).
      by destruct (heap w !! e) as [[]|]. }
    apply wp_call. rewrite Hset1. norm. wp_steps. ss_fail at_ss_set1. }
  (* the peer handle points to a key object: no fresh handle equals it *)
  assert (exists e priv, p = Some e /\ heap w !! e = Some (EC_KEY c pub priv))
    as (e & priv & -> & He).
  { unfold peer_key, deref in Hpeer. destruct p as [e|]; [|done].
    destruct (heap w !! e) as [[]|] eqn:He; simplify_eq. eauto. }
  assert (h ≠ e /\ h0 ≠ e /\ h1 ≠ e /\ h2 ≠ e /\ h3 ≠ e)
    as (? & ? & ? & ? & ?) by (repeat split; congruence).
  wp_status EVP_PKEY_set1_EC_KEY at_ss_set1; wp_steps; [| ss_fail at_ss_set1].
  wp_alloc EVP_PKEY_CTX_new; wp_steps; [| ss_fail at_ss_sctx_new].
  wp_status EVP_PKEY_derive_init at_ss_derive_init; wp_steps;
    [| ss_fail at_ss_derive_init].
  wp_status EVP_PKEY_derive_set_peer at_ss_set_peer;
    [| wp_steps; ss_fail at_ss_set_peer].
  destruct (curve_eqb NID_X9_62_prime256v1 c) eqn:Hc; norm; wp_steps.
  2: { (* the peer is on another curve: refused with -1, which line 172 lets
          through; the length query then finds no peer *)
    apply wp_call; unfold EVP_PKEY_derive; norm; heap_lookups; norm.
    wp_steps. ss_fail at_ss_derive_len. }
  assert (c = NID_X9_62_prime256v1) as -> by (by destruct c).
  wp_status EVP_PKEY_derive at_ss_derive_len; wp_steps;
    [| ss_fail at_ss_malloc | ss_fail at_ss_derive_len].
  change (0 <? 32) with true in *; rewrite ?andb_true_r in *.
  destruct pub as [Q|].
  2: { (* the peer key has no public point: the derivation answers 0 *)
    apply wp_call; unfold EVP_PKEY_derive; norm; heap_lookups; norm.
    destruct (lib_ok E at_ss_derive) eqn:?; norm; wp_steps; ss_fail at_ss_derive. }
  wp_status EVP_PKEY_derive at_ss_derive; wp_steps; [| ss_fail at_ss_derive].
  cbn [result]; norm. rewrite derive_bytes.
  eapply (ss_derived_eq _ _ _ h5); [world_eq | done | first_failure | done..].
Qed.

(** ** Summary of key_load_file *)

Ltac lf_leaf :=
  cbn [result]; norm; rewrite <- ?app_assoc; repeat split; try done.

Lemma key_load_file_post E eckey filename w :
  lf_post E eckey filename w
    (key_load_file E eckey filename w).1.1 (key_load_file E eckey filename w).1.2
    (key_load_file E eckey filename w).2.
Proof.
  unfold key_load_file.
  change (wp (key_load_file_code E filename)
            (fun fl f' w' => lf_post E eckey filename w (result fl) (lf.eckey f') w')
            {| lf.key := None; lf.fp := None; lf.eckey := eckey |} w).
  unfold key_load_file_code, EVP_PKEY_new, lf_post, opened, parsed.
  wp_steps.
  all: apply wp_call; unfold fopen, c_string; norm.
  all: destruct filename as [a|]; norm; [|wp_steps; lf_leaf].
  all: destruct (strings w !! a) as [path|]; norm; [|wp_steps; lf_leaf].
  all: destruct (fopen_result E path) as [e|content]; norm; wp_steps; [lf_leaf|].
  all: pose proof (fresh_handle_None (files w)) as Hfp.
  all: set (fp := fresh_handle (files w)) in *.
  all: apply wp_call; unfold PEM_read_PrivateKey; norm.
  all: rewrite lookup_insert_eq; cbn [mbind option_bind].
  all: rewrite Hok.
  all: destruct (lib_ok E at_load_pem_read); [destruct content|]; norm.
  all: try lazymatch goal with
       | |- context [new_object true ?o ?W] =>
           let h := fresh "h" in let Hh := fresh "Hh" in let Hn := fresh "Hn" in
           destruct (new_object_cases true o W) as [(_ & h & Hh & Hn) | (? & _)];
           [rewrite Hn; clear Hn; norm_in Hh; fresh_facts Hh; norm | done]
       end.
  all: wp_steps.
  all: rewrite ?(delete_insert_id _ _ _ Hfp).
  all: apply wp_call; unfold EVP_PKEY_get1_EC_KEY; norm; heap_lookups; norm.
  all: try lazymatch goal with
       | |- context [new_object true ?o ?W] =>
           let h := fresh "h" in let Hh := fresh "Hh" in let Hn := fresh "Hn" in
           destruct (new_object_cases true o W) as [(_ & h & Hh & Hn) | (? & _)];
           [rewrite Hn; clear Hn; norm_in Hh; fresh_facts Hh; norm | done]
       end.
  all: wp_steps; lf_leaf.
  all: eexists; by rewrite lookup_insert_eq.
Qed.

(** ** Peer key reconstruction *)

Lemma valid_public_point_on_curve c x y :
  valid_public_point c x y = true -> on_curve c x y = true.
Proof. unfold valid_public_point. by intros [_ ?]%andb_true_iff. Qed.

Lemma in_field_P256_range x :
  in_field prime256v1 x = true -> 0 <= x < 256 ^ Z.of_nat 32.
Proof.
  unfold in_field. intros [H1 H2]%andb_true_iff.
  apply Z.leb_le in H1. apply Z.ltb_lt in H2.
  split; [done|]. eapply Z.lt_trans; [exact H2|]. by vm_compute.
Qed.

Lemma decoded_wire x y :
  valid_public_point prime256v1 x y = true -> decoded (wire x y) = (x, y).
Proof.
  unfold valid_public_point. intros [[Hx Hy]%andb_true_iff _]%andb_true_iff.
  unfold decoded, wire, SGX_ECP256_KEY_SIZE; cbn [gx gy].
  by rewrite !le_roundtrip by by apply in_field_P256_range.
Qed.

(** C1.  A coordinate pair whose decoded point does not satisfy the equation
    of P-256 is refused: [key_from_sgx_ec256] returns NULL, the error kind is
    [e_crypto], and no object the call made is left alive: the heap of the
    library is what it was before the call, so the key object constructed at
    line 66 and the two numbers have been freed. *)
Theorem C1_off_curve_rejected (E : env) (k : sgx_ec256_public_t) (w : world) :
  on_curve NID_X9_62_prime256v1 (decoded k).1 (decoded k).2 = false ->
  (key_from_sgx_ec256 E k w).1 = None /\
  error_type (key_from_sgx_ec256 E k w).2 = e_crypto /\
  heap (key_from_sgx_ec256 E k w).2 = heap w.
Proof.
  intros Hoff. destruct (key_from_sgx_ec256_post E k w) as [h _ Hv _|_].
  - apply valid_public_point_on_curve in Hv. unfold NID_X9_62_prime256v1 in Hoff.
    congruence.
  - done.
Qed.

Lemma C1_witness :
  (key_from_sgx_ec256 env_ok (wire 0 0) world0).1 = None /\
  error_type (key_from_sgx_ec256 env_ok (wire 0 0) world0).2 = e_crypto /\
  heap (key_from_sgx_ec256 env_ok (wire 0 0) world0).2 = heap world0.
Proof. apply C1_off_curve_rejected. vm_compute. reflexivity. Defined.

(** C2.  For a valid public point of P-256, encoded as two little-endian
    arrays of 32 bytes, [key_from_sgx_ec256] returns a key object on P-256
    whose public point is that point, and records no error, whenever the
    library has the resources for the four calls the function makes. *)
Theorem C2_point_round_trip (E : env) (x y : Z) (w : world) :
  valid_public_point NID_X9_62_prime256v1 x y = true ->
  sgx_lib_ok E = true ->
  exists h,
    (key_from_sgx_ec256 E (wire x y) w).1 = Some h /\
    heap (key_from_sgx_ec256 E (wire x y) w).2 !! h =
      Some (EC_KEY NID_X9_62_prime256v1 (Some (x, y)) None) /\
    error_type (key_from_sgx_ec256 E (wire x y) w).2 = e_none.
Proof.
  intros Hv Hok. pose proof (decoded_wire x y Hv) as Hd.
  destruct (key_from_sgx_ec256_post E (wire x y) w) as [h _ _ _|Hno].
  - exists h. rewrite Hd. cbn [heap error_type]. by rewrite lookup_insert_eq.
  - rewrite Hd, Hok in Hno. cbn [fst snd andb] in Hno.
    unfold NID_X9_62_prime256v1 in Hv. congruence.
Qed.

Lemma C2_witness :
  exists h,
    (key_from_sgx_ec256 env_ok (wire P256_Gx P256_Gy) world0).1 = Some h /\
    heap (key_from_sgx_ec256 env_ok (wire P256_Gx P256_Gy) world0).2 !! h =
      Some (EC_KEY NID_X9_62_prime256v1 (Some (P256_Gx, P256_Gy)) None) /\
    error_type (key_from_sgx_ec256 env_ok (wire P256_Gx P256_Gy) world0).2 = e_none.
Proof. apply C2_point_round_trip; vm_compute; reflexivity. Defined.

(** ** The error record *)

(** C3, as the spec states it, fails: the context pointer is not reset.
    A failed [key_load_file] leaves the pointer to its path in [ep]; a
    later [key_from_sgx_ec256] that succeeds stores to the kind only, and
    [ep] still holds the pointer of the earlier call. *)
Lemma C3_context_not_reset :
  let w1 := (key_load_file env_ok None (Some 2%nat) world0).2 in
  let r := key_from_sgx_ec256 env_ok (wire P256_Gx P256_Gy) w1 in
  ep w1 = Some 2%nat /\
  r.1 = Some 4%nat /\
  stores r.2 = stores w1 ++ [Store_error_type e_none] /\
  error_type r.2 = e_none /\
  ep r.2 = Some 2%nat.
Proof. vm_compute. repeat split; reflexivity. Qed.

(** C3, amended.  Each of the three operations resets the error kind at
    entry and leaves the context pointer alone; it then assigns the kind
    exactly once more when it fails and never when it succeeds.  The context
    pointer is assigned only by [key_load_file], once, when the file cannot
    be opened. *)
Theorem C3_error_kind_protocol (E : env) (w : world) :
  (forall eckey filename,
     let r := key_load_file E eckey filename w in
     match r.1.1 with
     | Returned v =>
         exists l, kind_protocol (v =? 0) w r.2 l /\
           match opened E w filename with
           | inl _ => ep_writes l = [filename] /\ ep r.2 = filename
           | inr _ => ep_untouched w r.2 l
           end
     | Undefined => True
     end) /\
  (forall k,
     let r := key_from_sgx_ec256 E k w in
     exists l, kind_protocol (is_null r.1) w r.2 l /\ ep_untouched w r.2 l) /\
  (forall ec_g_a slen,
     let r := key_shared_secret E ec_g_a slen w in
     exists l, kind_protocol (is_null r.1.1) w r.2 l /\ ep_untouched w r.2 l).
Proof.
  split; [|split].
  - intros eckey filename. cbv zeta.
    pose proof (key_load_file_post E eckey filename w) as (_ & _ & _ & _ & Hpost).
    destruct (key_load_file E eckey filename w) as [[o eckey'] w'].
    cbn [fst snd] in *.
    destruct (opened E w filename) as [e|content].
    + destruct Hpost as (-> & _ & Hk & Hep & _ & Hst).
      exists [Store_error_type e_system; Store_ep filename].
      unfold kind_protocol. cbn. by rewrite Hk.
    + destruct Hpost as (Hep & _ & Hpost).
      assert (Hfail : o = Returned 0 /\ error_type w' = e_crypto /\
                stores w' = stores w ++ [Store_error_type e_none; Store_error_type e_crypto] ->
              match o with
              | Returned v =>
                  exists l, kind_protocol (v =? 0) w w' l /\ ep_untouched w w' l
              | Undefined => True
              end).
      { intros (-> & Hk & Hst). exists [Store_error_type e_crypto].
        unfold kind_protocol, ep_untouched. cbn. by rewrite Hk. }
      destruct (parsed E content) as [[|c pub priv|]|].
      * apply Hfail. tauto.
      * destruct Hpost as (h & -> & _ & _ & _ & Hk & Hst).
        exists []. unfold kind_protocol, ep_untouched. by cbn.
      * apply Hfail. tauto.
      * destruct (lib_ok E at_load_pkey_new); [apply Hfail; tauto | by rewrite Hpost].
  - intros k r. subst r.
    destruct (key_from_sgx_ec256_post E k w).
    + exists []. unfold kind_protocol, ep_untouched. by cbn.
    + exists [Store_error_type e_crypto]. unfold kind_protocol, ep_untouched. by cbn.
  - intros ec_g_a slen r. subst r.
    destruct (key_shared_secret_post E ec_g_a slen w).
    + exists []. unfold kind_protocol, ep_untouched. by cbn.
    + exists [Store_error_type e_crypto]. unfold kind_protocol, ep_untouched. by cbn.
Qed.

(** ** Curves *)

Ltac key_leaf :=
  unfold ephemeral_on_P256; norm; rewrite ?lookup_delete_ne by done;
  heap_lookups; eauto.

Lemma key_shared_secret_block_key E p n w :
  ephemeral_on_P256 (key_shared_secret_block E p (ss.init n, w)).2.1
    (key_shared_secret_block E p (ss.init n, w)).2.2.
Proof.
  change (wp (key_shared_secret_block E p) (fun _ f' w' => ephemeral_on_P256 f' w')
            (ss.init n) w).
  unfold key_shared_secret_block, EVP_PKEY_CTX_new_id, EVP_PKEY_new, OPENSSL_malloc.
  wp_steps; [| key_leaf].
  wp_status EVP_PKEY_paramgen_init at_ss_paramgen_init; wp_steps; [| key_leaf].
  wp_status EVP_PKEY_CTX_set_ec_paramgen_curve_nid at_ss_set_curve; wp_steps;
    [| key_leaf].
  wp_alloc EVP_PKEY_paramgen; wp_steps; [| key_leaf].
  wp_alloc EVP_PKEY_CTX_new; wp_steps; [| key_leaf].
  wp_status EVP_PKEY_keygen_init at_ss_keygen_init; wp_steps; [| key_leaf].
  wp_alloc EVP_PKEY_keygen; [| wp_steps; key_leaf].
  wp_steps; [| key_leaf].
  (* from here on [key] is set; whatever the remaining calls answer, they
     leave the object it points to alone *)
  apply wp_call; unfold EVP_PKEY_set1_EC_KEY; norm; heap_lookups.
  destruct (deref _ p) as [[? []]|]; norm; try (wp_steps; key_leaf).
  destruct (lib_ok E at_ss_set1); norm; wp_steps; [| key_leaf].
  wp_alloc EVP_PKEY_CTX_new; wp_steps; [| key_leaf].
  wp_status EVP_PKEY_derive_init at_ss_derive_init; wp_steps; [| key_leaf].
  wp_status EVP_PKEY_derive_set_peer at_ss_set_peer; [| wp_steps; key_leaf].
  destruct (curve_eqb NID_X9_62_prime256v1 c); norm; wp_steps.
  2: { apply wp_call; unfold EVP_PKEY_derive; norm; heap_lookups; norm.
       wp_steps. key_leaf. }
  wp_status EVP_PKEY_derive at_ss_derive_len; wp_steps; [| key_leaf | key_leaf].
  apply wp_call; unfold EVP_PKEY_derive; norm; heap_lookups; norm.
  destruct (lib_ok E at_ss_derive), pub; norm; wp_steps; key_leaf.
Qed.

(** C4, as the spec states it, fails: [key_load_file] returns 1 with a key
    handle on P-384 when the file holds a key on that curve. *)
Lemma C4_load_file_other_curve :
  let r := key_load_file env_ok None (Some 1%nat) world0 in
  r.1.1 = Returned 1 /\
  r.1.2 = Some 2%nat /\
  heap r.2 !! 2%nat = Some (EC_KEY secp384r1 (Some (generator secp384r1)) (Some 1)) /\
  error_type r.2 = e_none.
Proof. vm_compute. repeat split; reflexivity. Qed.

(** C4, amended.  The key objects the module makes itself are on P-256: the
    handle [key_from_sgx_ec256] returns, and the key pair
    [key_shared_secret] generates.  [key_shared_secret] returns no secret
    for a peer key on another curve.  [key_load_file] makes no check of the
    curve: when the file holds an EC private key and the parser has its
    resources, it returns 1 and a handle to that key, on the curve of the
    file. *)
Theorem C4_curves (E : env) (w : world) :
  (forall k,
     let r := key_from_sgx_ec256 E k w in
     match r.1 with
     | Some h => exists pub, heap r.2 !! h = Some (EC_KEY NID_X9_62_prime256v1 (Some pub) None)
     | None => True
     end) /\
  (forall ec_g_a slen,
     let s := key_shared_secret_block E ec_g_a (ss.set_slen 0 (ss.init slen), set_error_type e_none w) in
     ephemeral_on_P256 s.2.1 s.2.2) /\
  (forall ec_g_a slen,
     match peer_key w ec_g_a with
     | Some (c, _) =>
         if curve_eqb NID_X9_62_prime256v1 c then True
         else (key_shared_secret E ec_g_a slen w).1.1 = None
     | None => (key_shared_secret E ec_g_a slen w).1.1 = None
     end) /\
  (forall eckey filename,
     let r := key_load_file E eckey filename w in
     match opened E w filename with
     | inr (PEM_ec_key c pub priv) =>
         if lib_ok E at_load_pem_read
         then exists h, r.1.1 = Returned 1 /\ r.1.2 = Some h /\
                heap r.2 !! h = Some (EC_KEY c (Some pub) (Some priv))
         else True
     | _ => True
     end).
Proof.
  repeat split.
  - intros k r. subst r. destruct (key_from_sgx_ec256_post E k w); [|done].
    eexists. cbn [heap snd]. by rewrite lookup_insert_eq.
  - intros ec_g_a slen. apply (key_shared_secret_block_key E ec_g_a 0).
  - intros ec_g_a slen.
    destruct (key_shared_secret_post E ec_g_a slen w) as [h Q _ Hpeer _|s out Hs _].
    + by rewrite Hpeer.
    + by destruct (peer_key w ec_g_a) as [[c ?]|]; [destruct (curve_eqb _ c)|].
  - intros eckey filename r.
    pose proof (key_load_file_post E eckey filename w) as (_ & _ & _ & _ & Hpost).
    fold r in Hpost. unfold parsed in Hpost.
    destruct (opened E w filename) as [|[| c pub priv |]]; try done.
    destruct (lib_ok E at_load_pem_read); [|done].
    cbn [pem_body] in Hpost. destruct Hpost as (_ & _ & h & ? & ? & _ & ? & _). eauto.
Qed.

(** ** Streams *)

(** C5.  When the file cannot be opened, [key_load_file] returns 0 with the
    error kind [e_system] and the pointer to the path in [ep], and leaves
    [*eckey] alone.  In every case the set of open streams is the same after
    the call as before it: no stream is opened when [fopen] fails, and the
    stream [fopen] returned is closed on every path, whatever the parser and
    the key extraction answer. *)
Theorem C5_load_file_streams (E : env) (eckey filename : ptr) (w : world) :
  files (key_load_file E eckey filename w).2 = files w /\
  match opened E w filename with
  | inl e =>
      (key_load_file E eckey filename w).1 = (Returned 0, eckey) /\
      error_type (key_load_file E eckey filename w).2 = e_system /\
      ep (key_load_file E eckey filename w).2 = filename /\
      errno (key_load_file E eckey filename w).2 = e
  | inr _ => True
  end.
Proof.
  pose proof (key_load_file_post E eckey filename w) as (Hf & _ & _ & _ & Hpost).
  split; [done|].
  destruct (opened E w filename); [|done].
  destruct Hpost as (Ho & He & ? & ? & ? & _).
  repeat split; try done.
  destruct (key_load_file E eckey filename w) as [[o e'] w']. cbn in *. congruence.
Qed.

(** ** The shared secret *)

Lemma ss_success_all_pass E p w :
  ss_first_failure E p w = None -> forall s, In s ss_sites -> step_passes E p w s = true.
Proof.
  intros Hnone s Hs. apply (find_none _ _ Hnone) in Hs. by apply negb_false_iff.
Qed.

(** C6.  When a step of [key_shared_secret] fails (one of the library calls
    the function makes lacks the resources, or the peer key does not suit
    the step), the function returns NULL with the error kind [e_crypto], and
    the heap of the library is what it was before the call: the secret
    buffer, if it was allocated, the three contexts, the parameters, the
    generated key pair and the peer key wrapper have all been freed. *)
Theorem C6_failure_releases_everything
    (E : env) (ec_g_a : ptr) (slen : Z) (w : world) (s : site) :
  In s ss_sites ->
  step_passes E ec_g_a w s = false ->
  (key_shared_secret E ec_g_a slen w).1.1 = None /\
  heap (key_shared_secret E ec_g_a slen w).2 = heap w /\
  error_type (key_shared_secret E ec_g_a slen w).2 = e_crypto.
Proof.
  intros Hs Hfail.
  destruct (key_shared_secret_post E ec_g_a slen w) as [h Q Hnone _ _|]; [|done].
  pose proof (ss_success_all_pass E ec_g_a w Hnone s Hs). congruence.
Qed.

Lemma C6_witness :
  (key_shared_secret (env_failing_at at_ss_derive) peer0 0 world1).1.1 = None /\
  heap (key_shared_secret (env_failing_at at_ss_derive) peer0 0 world1).2 = heap world1 /\
  error_type (key_shared_secret (env_failing_at at_ss_derive) peer0 0 world1).2 = e_crypto.
Proof.
  apply (C6_failure_releases_everything _ _ _ _ at_ss_derive).
  - simpl. tauto.
  - vm_compute. reflexivity.
Defined.

(** C7.  When [key_shared_secret] returns a buffer, the length left in
    [*slen] is the length the length query answered (the one line 182
    prints), it is the size of a field element of P-256, 32, hence not zero,
    and the buffer returned has that size and holds that many bytes of
    secret. *)
Theorem C7_secret_length (E : env) (ec_g_a : ptr) (slen : Z) (w : world) (b : nat) :
  (key_shared_secret E ec_g_a slen w).1.1 = Some b ->
  exists data,
    heap (key_shared_secret E ec_g_a slen w).2 !! b =
      Some (BUFFER (key_shared_secret E ec_g_a slen w).1.2 data) /\
    Z.of_nat (length data) = (key_shared_secret E ec_g_a slen w).1.2 /\
    (key_shared_secret E ec_g_a slen w).1.2 = field_bytes NID_X9_62_prime256v1 /\
    (key_shared_secret E ec_g_a slen w).1.2 <> 0 /\
    stderr (key_shared_secret E ec_g_a slen w).2 =
      stderr w ++ [Out_slen (key_shared_secret E ec_g_a slen w).1.2; Out_secret (Some b)].
Proof.
  intros Hb.
  destruct (key_shared_secret_post E ec_g_a slen w) as [h Q _ _ _|]; [|done].
  injection Hb as ->. eexists. cbn [heap stderr snd].
  rewrite lookup_insert_eq, length_be_bytes. by repeat split.
Qed.

Lemma C7_witness :
  exists data,
    heap (key_shared_secret env_ok peer0 0 world1).2 !! 10%nat =
      Some (BUFFER (key_shared_secret env_ok peer0 0 world1).1.2 data) /\
    Z.of_nat (length data) = (key_shared_secret env_ok peer0 0 world1).1.2 /\
    (key_shared_secret env_ok peer0 0 world1).1.2 = field_bytes NID_X9_62_prime256v1 /\
    (key_shared_secret env_ok peer0 0 world1).1.2 <> 0 /\
    stderr (key_shared_secret env_ok peer0 0 world1).2 =
      stderr world1 ++ [Out_slen (key_shared_secret env_ok peer0 0 world1).1.2;
                        Out_secret (Some 10%nat)].
Proof. apply C7_secret_length. vm_compute. reflexivity. Defined.

(** Two calls in a row against the same peer key: each draws a key pair of
    its own, the second the draw after the first; both secrets have 32
    bytes, and they are the x coordinates of the two products.  (Whether the
    two differ is a matter of the generator behind [entropy].) *)
Lemma successive_calls_draw_afresh E p n1 n2 w b1 b2 :
  (key_shared_secret E p n1 w).1.1 = Some b1 ->
  (key_shared_secret E p n2 (key_shared_secret E p n1 w).2).1.1 = Some b2 ->
  exists Q,
    peer_key w p = Some (NID_X9_62_prime256v1, Some Q) /\
    heap (key_shared_secret E p n1 w).2 !! b1 =
      Some (BUFFER 32 (be_bytes 32 (ecdh_x E (entropy E (draws w)) Q))) /\
    heap (key_shared_secret E p n2 (key_shared_secret E p n1 w).2).2 !! b2 =
      Some (BUFFER 32 (be_bytes 32 (ecdh_x E (entropy E (S (draws w))) Q))).
Proof.
  intros H1.
  destruct (key_shared_secret_post E p n1 w) as [h Q _ Hpeer Hh|]; [|done].
  injection H1 as ->.
  set (w1 := {| error_type := e_none; ep := ep w; stores := _; errno := _;
                heap := _; files := _; strings := _; stderr := _; draws := _ |}).
  intros H2.
  destruct (key_shared_secret_post E p n2 w1) as [h' Q' _ Hpeer' _|]; [|done].
  injection H2 as ->.
  assert (Q' = Q) as ->.
  { unfold peer_key, deref in Hpeer, Hpeer'. destruct p as [e|]; [|done].
    subst w1. cbn [heap] in Hpeer'.
    destruct (decide (b1 = e)) as [->|Hne].
    - by rewrite Hh in Hpeer.
    - rewrite lookup_insert_ne in Hpeer' by done. congruence. }
  exists Q. subst w1. cbn [heap draws]. by rewrite !lookup_insert_eq.
Qed.

(** C10.  When [key_shared_secret] fails, what is left in [*slen] depends on
    the step that failed: the cell is zeroed at entry, whatever it held, and
    stays zero when a step up to the length query fails; when the first step
    to fail is the allocation of the buffer or the final derivation, the
    cell holds the length the query answered, 32.  The pointer returned is
    NULL in both cases. *)
Theorem C10_slen_after_failure
    (E : env) (ec_g_a : ptr) (slen : Z) (w : world) (s : site) :
  ss_first_failure E ec_g_a w = Some s ->
  (key_shared_secret E ec_g_a slen w).1.1 = None /\
  (key_shared_secret E ec_g_a slen w).1.2 =
    (if bool_decide (s = at_ss_malloc \/ s = at_ss_derive) then 32 else 0).
Proof.
  intros Hs.
  destruct (key_shared_secret_post E ec_g_a slen w) as [|s' out Hs' _]; [congruence|].
  split; [done|]. rewrite Hs in Hs'. injection Hs' as <-.
  apply find_some in Hs as [Hin _].
  repeat (destruct Hin as [<-|Hin]; [by vm_compute|]). done.
Qed.

Lemma C10_witness :
  (key_shared_secret (env_failing_at at_ss_malloc) peer0 99 world1).1.1 = None /\
  (key_shared_secret (env_failing_at at_ss_malloc) peer0 99 world1).1.2 =
    (if bool_decide (at_ss_malloc = at_ss_malloc \/ at_ss_malloc = at_ss_derive)
     then 32 else 0).
Proof. apply C10_slen_after_failure. vm_compute. reflexivity. Defined.

(** ** The report *)

(** C9, as the spec states it, fails: the error number is not captured.
    The open fails with [ENOENT]; a system call made before the report
    leaves [EACCES] in [errno]; the report describes [EACCES]. *)
Lemma C9_report_reads_current_errno :
  let w1 := (key_load_file env_ok None (Some 2%nat) world0).2 in
  errno w1 = ENOENT /\
  stderr (key_perror "load" (interfere_all [Sets_errno EACCES] w1)) =
    [Out_text "load: "; Out_perror (Some "missing.pem") EACCES].
Proof. vm_compute. split; reflexivity. Qed.

Lemma interfere_all_statics l w :
  error_type (interfere_all l w) = error_type w /\
  ep (interfere_all l w) = ep w /\
  stderr (interfere_all l w) = stderr w.
Proof.
  revert w. induction l as [|i l IH]; intros w; [done|].
  cbn [interfere_all fold_left]. fold (interfere_all l (interfere w i)).
  destruct (IH (interfere w i)) as (-> & -> & ->). by destruct i.
Qed.

Lemma key_perror_system prefix w :
  error_type w = e_system ->
  stderr (key_perror prefix w) =
    stderr w ++ [Out_text (prefix +:+ ": "); Out_perror (c_string w (ep w)) (errno w)].
Proof.
  intros Hk. unfold key_perror. cbn [emit error_type]. rewrite Hk.
  repeat (case_decide; try done).
  unfold perror, c_string. cbn [emit stderr ep strings errno].
  by rewrite <- app_assoc.
Qed.

(** C9, amended.  After a [key_load_file] that failed to open its file,
    the kind [e_system] and the pointer to the path are what the failure
    stored, whatever runs before the report; [key_perror] prints the prefix,
    then the string found behind that pointer and the description of the
    error number [errno] holds, both as they are at the time of the report.
    The error number of the failed open is in [errno] when the function
    returns, and stays the one reported only as long as nothing else sets
    [errno]. *)
Theorem C9_report_after_open_failure
    (E : env) (eckey filename : ptr) (w : world) (prefix : string)
    (between : list interference) (e : Z) :
  opened E w filename = inl e ->
  let w1 := (key_load_file E eckey filename w).2 in
  let w2 := interfere_all between w1 in
  error_type w2 = e_system /\ ep w2 = filename /\
  stderr (key_perror prefix w2) =
    stderr w ++ [Out_text (prefix +:+ ": ");
                 Out_perror (c_string w2 filename) (errno w2)] /\
  errno w1 = e /\ c_string w1 filename = c_string w filename.
Proof.
  intros Hopen w1 w2.
  pose proof (key_load_file_post E eckey filename w) as (_ & Hs & Herr & _ & Hpost).
  fold w1 in Hs, Herr, Hpost. rewrite Hopen in Hpost.
  destruct Hpost as (_ & _ & Hk & Hep & He & _).
  destruct (interfere_all_statics between w1) as (Hk2 & Hep2 & Herr2).
  fold w2 in Hk2, Hep2, Herr2.
  rewrite Hk in Hk2. rewrite Hep in Hep2. rewrite Herr in Herr2.
  repeat split; try done.
  - by rewrite (key_perror_system _ _ Hk2), Hep2, Herr2.
  - unfold c_string. by rewrite Hs.
Qed.

Lemma C9_witness :
  let w1 := (key_load_file env_ok None (Some 2%nat) world0).2 in
  let w2 := interfere_all [Sets_errno EACCES; Overwrites_string 2 "other.pem"] w1 in
  error_type w2 = e_system /\ ep w2 = Some 2%nat /\
  stderr (key_perror "load" w2) =
    stderr world0 ++ [Out_text ("load" +:+ ": ");
                      Out_perror (c_string w2 (Some 2%nat)) (errno w2)] /\
  errno w1 = ENOENT /\ c_string w1 (Some 2%nat) = c_string world0 (Some 2%nat).
Proof. apply C9_report_after_open_failure. vm_compute. reflexivity. Defined.

(** * Further properties *)

(** ** key_from_sgx_ec256 *)

Lemma byte_of_Z_low b v : byte_of_Z (byte_val b + 256 * v) = b.
Proof.
  pose proof (byte_val_range b) as Hb.
  unfold byte_of_Z.
  replace ((byte_val b + 256 * v) mod 256) with (byte_val b)
    by (rewrite Z.mul_comm, Z_mod_plus_full; by rewrite Z.mod_small).
  unfold byte_val. by rewrite N2Z.id, Byte.of_to_N.
Qed.

(** Encoding what was decoded gives the bytes back. *)
Lemma le_bytes_le_value l : le_bytes (length l) (le_value l) = l.
Proof.
  induction l as [|b l IH]; [done|].
  cbn [length le_value le_bytes].
  pose proof (byte_val_range b) as Hb.
  rewrite byte_of_Z_low. f_equal.
  replace ((byte_val b + 256 * le_value l) / 256) with (le_value l); [done|].
  rewrite Z.add_comm, Z.mul_comm, Z.div_add_l by lia.
  rewrite (Z.div_small (byte_val b)) by lia. lia.
Qed.

(** X1.  [key_from_sgx_ec256] returns a key exactly when the library has
    the resources for its four calls and the two decoded coordinates are
    both below the prime of the field and satisfy the equation of P-256; it
    returns NULL in every other case, so also for a coordinate that is not
    reduced. *)
Theorem X1_sgx_key_iff_valid (E : env) (k : sgx_ec256_public_t) (w : world) :
  is_null (key_from_sgx_ec256 E k w).1 =
    negb (sgx_lib_ok E &&
          valid_public_point NID_X9_62_prime256v1 (decoded k).1 (decoded k).2).
Proof.
  destruct (key_from_sgx_ec256_post E k w) as [h Hok Hv _|Hno].
  - unfold NID_X9_62_prime256v1. by rewrite Hok, Hv.
  - unfold NID_X9_62_prime256v1. by rewrite Hno.
Qed.

(** X2.  Whatever [key_from_sgx_ec256] returns, the two numbers made at
    lines 56 and 61 are freed at the label [cleanup]: the heap of the
    library after the call is the heap before it, with the key returned as
    the one new object when a key is returned.  The call opens no stream,
    prints nothing, draws no key pair, and leaves [errno], [ep] and the
    caller's strings alone. *)
Theorem X2_sgx_leaves_only_the_key (E : env) (k : sgx_ec256_public_t) (w : world) :
  let r := key_from_sgx_ec256 E k w in
  match r.1 with
  | Some h =>
      heap w !! h = None /\
      heap r.2 = <[h := EC_KEY NID_X9_62_prime256v1 (Some (decoded k)) None]> (heap w)
  | None => heap r.2 = heap w
  end /\
  files r.2 = files w /\ strings r.2 = strings w /\ stderr r.2 = stderr w /\
  errno r.2 = errno w /\ ep r.2 = ep w /\ draws r.2 = draws w.
Proof.
  cbv zeta. by destruct (key_from_sgx_ec256_post E k w).
Qed.

(** X3.  The key returned determines the argument: for an argument of two
    arrays of 32 bytes, encoding the coordinates of the public point of the
    key returned, each as 32 bytes least significant first, gives the
    argument back byte for byte. *)
Theorem X3_sgx_key_encodes_back
    (E : env) (k : sgx_ec256_public_t) (w : world) (h : nat) :
  length (gx k) = SGX_ECP256_KEY_SIZE ->
  length (gy k) = SGX_ECP256_KEY_SIZE ->
  (key_from_sgx_ec256 E k w).1 = Some h ->
  exists x y,
    heap (key_from_sgx_ec256 E k w).2 !! h =
      Some (EC_KEY NID_X9_62_prime256v1 (Some (x, y)) None) /\
    wire x y = k.
Proof.
  intros Hx Hy Hh.
  destruct (key_from_sgx_ec256_post E k w) as [h' _ _ _|]; [|done].
  injection Hh as ->.
  exists (decoded k).1, (decoded k).2. cbn [heap snd]. rewrite lookup_insert_eq.
  split; [by destruct (decoded k)|].
  destruct k as [bx by_]. unfold wire, decoded. cbn [gx gy fst snd] in *.
  rewrite <- Hx, !take_ge by (unfold SGX_ECP256_KEY_SIZE in *; lia).
  rewrite le_bytes_le_value, Hx, <- Hy. by rewrite le_bytes_le_value.
Qed.

Lemma X3_witness :
  exists x y,
    heap (key_from_sgx_ec256 env_ok (wire P256_Gx P256_Gy) world0).2 !! 3%nat =
      Some (EC_KEY NID_X9_62_prime256v1 (Some (x, y)) None) /\
    wire x y = wire P256_Gx P256_Gy.
Proof.
  apply (X3_sgx_key_encodes_back env_ok (wire P256_Gx P256_Gy) world0 3);
    vm_compute; reflexivity.
Defined.

(** ** key_shared_secret *)

Lemma step_passes_lib_ok E p w s : step_passes E p w s = true -> lib_ok E s = true.
Proof. unfold step_passes. by intros [? _]%andb_true_iff. Qed.

(** No step fails exactly when every call has its resources and the peer
    key suits. *)
Lemma ss_first_failure_None E p w :
  ss_first_failure E p w = None <->
  forallb (lib_ok E) ss_sites && peer_suits w p = true.
Proof.
  split.
  - intros Hnone. pose proof (ss_success_all_pass E p w Hnone) as Hall.
    apply andb_true_iff. split.
    + apply forallb_forall. intros s Hs. by apply (step_passes_lib_ok E p w), Hall.
    + assert (H1 : step_passes E p w at_ss_derive_len = true)
        by (apply Hall; unfold ss_sites; cbn; tauto).
      assert (H2 : step_passes E p w at_ss_derive = true)
        by (apply Hall; unfold ss_sites; cbn; tauto).
      unfold step_passes in H1, H2. unfold peer_suits.
      apply andb_true_iff in H1 as [_ H1]. apply andb_true_iff in H2 as [_ H2].
      by destruct (peer_key w p) as [[c [Q|]]|].
  - intros [Hlib Hpeer]%andb_true_iff.
    destruct (ss_first_failure E p w) as [s|] eqn:Hs; [|done].
    apply find_some in Hs as [Hin Hfail]. apply negb_true_iff in Hfail.
    assert (Hok : lib_ok E s = true) by (by apply (proj1 (forallb_forall _ _) Hlib)).
    unfold step_passes in Hfail. rewrite Hok in Hfail. unfold peer_suits in Hpeer.
    destruct (peer_key w p) as [[c [Q|]]|]; [|done..].
    cbn [mbind option_bind snd is_null negb andb] in Hfail. rewrite Hpeer in Hfail.
    by destruct s.
Qed.


(** X5.  When [key_shared_secret] returns a buffer, the buffer holds the x
    coordinate of the product of the scalar drawn in this call and the
    public point of the peer key, as 32 bytes, and the buffer is the one
    object the call leaves behind: the three contexts, the parameters, the
    peer key wrapper and the generated key pair, its public part included,
    have been freed at the label [cleanup].  No error is recorded. *)
Theorem X5_secret_is_all_that_is_left
    (E : env) (ec_g_a : ptr) (slen : Z) (w : world) (b : nat) :
  (key_shared_secret E ec_g_a slen w).1.1 = Some b ->
  exists Q,
    peer_key w ec_g_a = Some (NID_X9_62_prime256v1, Some Q) /\
    heap w !! b = None /\
    heap (key_shared_secret E ec_g_a slen w).2 =
      <[b := BUFFER 32 (be_bytes 32 (ecdh_x E (entropy E (draws w)) Q))]> (heap w) /\
    error_type (key_shared_secret E ec_g_a slen w).2 = e_none.
Proof.
  intros Hb.
  destruct (key_shared_secret_post E ec_g_a slen w) as [h Q _ Hpeer Hh|]; [|done].
  injection Hb as ->. by exists Q.
Qed.

Lemma X5_witness :
  exists Q,
    peer_key world1 peer0 = Some (NID_X9_62_prime256v1, Some Q) /\
    heap world1 !! 10%nat = None /\
    heap (key_shared_secret env_ok peer0 0 world1).2 =
      <[10%nat := BUFFER 32 (be_bytes 32 (ecdh_x env_ok (entropy env_ok (draws world1)) Q))]>
        (heap world1) /\
    error_type (key_shared_secret env_ok peer0 0 world1).2 = e_none.
Proof. apply X5_secret_is_all_that_is_left. vm_compute. reflexivity. Defined.

(** X6.  The secret is returned as the library wrote it, most significant
    byte first, which is the opposite of the order [key_from_sgx_ec256]
    reads its argument in: the bytes of the buffer have to be reversed
    before they decode, least significant byte first, to the x coordinate
    of the product. *)
Theorem X6_secret_byte_order
    (E : env) (ec_g_a : ptr) (slen : Z) (w : world) (b : nat) :
  (key_shared_secret E ec_g_a slen w).1.1 = Some b ->
  exists Q data,
    peer_key w ec_g_a = Some (NID_X9_62_prime256v1, Some Q) /\
    heap (key_shared_secret E ec_g_a slen w).2 !! b = Some (BUFFER 32 data) /\
    le_value (rev data) = ecdh_x E (entropy E (draws w)) Q mod 2 ^ 256.
Proof.
  intros Hb.
  destruct (key_shared_secret_post E ec_g_a slen w) as [h Q _ Hpeer Hh|]; [|done].
  injection Hb as ->. exists Q. eexists. cbn [heap snd]. rewrite lookup_insert_eq.
  split; [done|]. split; [done|].
  unfold be_bytes. by rewrite rev_involutive, le_value_le_bytes.
Qed.

Lemma X6_witness :
  exists Q data,
    peer_key world1 peer0 = Some (NID_X9_62_prime256v1, Some Q) /\
    heap (key_shared_secret env_ok peer0 0 world1).2 !! 10%nat = Some (BUFFER 32 data) /\
    le_value (rev data) = ecdh_x env_ok (entropy env_ok (draws world1)) Q mod 2 ^ 256.
Proof. apply X6_secret_byte_order. vm_compute. reflexivity. Defined.

(** X7.  [key_shared_secret] frees only what it made: every object alive
    before the call is alive and unchanged after it, on success and on
    failure, so the peer key is still the caller's to use and to free.  The
    call opens no stream and leaves [errno], [ep] and the caller's strings
    alone. *)
Theorem X7_secret_keeps_live_objects (E : env) (ec_g_a : ptr) (slen : Z) (w : world) :
  let r := key_shared_secret E ec_g_a slen w in
  (forall j o, heap w !! j = Some o -> heap r.2 !! j = Some o) /\
  files r.2 = files w /\ strings r.2 = strings w /\
  errno r.2 = errno w /\ ep r.2 = ep w.
Proof.
  cbv zeta.
  destruct (key_shared_secret_post E ec_g_a slen w) as [h Q _ _ Hh|]; cbn [heap snd];
    repeat split; try done.
  intros j o Hj. rewrite lookup_insert_ne; [done | congruence].
Qed.

(** X8.  A call of [key_shared_secret] generates one key pair when the
    seven library calls up to [EVP_PKEY_keygen] have their resources, and
    none otherwise.  The peer key is looked at only afterwards (line 154):
    a call with a peer key that does not suit still generates a key pair,
    and frees it. *)
Theorem X8_one_key_pair_per_call (E : env) (ec_g_a : ptr) (slen : Z) (w : world) :
  draws (key_shared_secret E ec_g_a slen w).2 =
    if forallb (lib_ok E) ss_keygen_sites then S (draws w) else draws w.
Proof.
  destruct (key_shared_secret_post E ec_g_a slen w) as [h Q Hnone _ _|s out Hs _];
    cbn [draws snd].
  - apply ss_first_failure_None in Hnone as [Hlib _]%andb_true_iff.
    assert (forallb (lib_ok E) ss_keygen_sites = true) as ->; [|done].
    apply forallb_forall. intros s Hs. apply (proj1 (forallb_forall _ _) Hlib).
    unfold ss_keygen_sites in Hs. unfold ss_sites. cbn in *. tauto.
  - unfold ss_first_failure, ss_sites in Hs. cbn [List.find] in Hs.
    unfold ss_keygen_sites. cbn [forallb].
    repeat lazymatch type of Hs with
    | (if negb (step_passes E ec_g_a w ?s0) then _ else _) = _ =>
        let H := fresh "Hstep" in
        destruct (step_passes E ec_g_a w s0) eqn:H; cbn [negb] in Hs;
        [ apply step_passes_lib_ok in H; try rewrite H; cbn [andb]
        | injection Hs as <-; unfold step_passes in H; rewrite ?andb_true_r in H;
          try rewrite H; cbn [andb ss_draws]; try reflexivity ]
    end.
    done.
Qed.

(** X9.  The two functions in a row.  For a valid public point of P-256 and
    a library with resources throughout, the key [key_from_sgx_ec256]
    builds from the encoded point is a peer key [key_shared_secret]
    accepts: the second call returns a buffer of 32 bytes holding the x
    coordinate of the product of the scalar it drew and that point, and
    after both calls the heap holds two new objects, the peer key and the
    buffer. *)
Theorem X9_peer_key_then_secret (E : env) (x y : Z) (slen : Z) (w : world) :
  valid_public_point NID_X9_62_prime256v1 x y = true ->
  sgx_lib_ok E = true ->
  forallb (lib_ok E) ss_sites = true ->
  let r1 := key_from_sgx_ec256 E (wire x y) w in
  let r2 := key_shared_secret E r1.1 slen r1.2 in
  exists h b,
    r1.1 = Some h /\ r2.1.1 = Some b /\ r2.1.2 = 32 /\
    heap r2.2 =
      <[b := BUFFER 32 (be_bytes 32 (ecdh_x E (entropy E (draws w)) (x, y)))]>
        (<[h := EC_KEY NID_X9_62_prime256v1 (Some (x, y)) None]> (heap w)) /\
    h <> b /\ heap w !! h = None /\ heap w !! b = None /\
    error_type r2.2 = e_none.
Proof.
  intros Hv Hok Hlib. cbv zeta. pose proof (decoded_wire x y Hv) as Hd.
  destruct (key_from_sgx_ec256_post E (wire x y) w) as [h _ _ Hh|Hno].
  2: { rewrite Hd, Hok in Hno. cbn [fst snd andb] in Hno.
       unfold NID_X9_62_prime256v1 in Hv. congruence. }
  rewrite Hd. cbn [fst snd].
  set (w1 := {| error_type := e_none; ep := ep w; stores := _; errno := _;
                heap := _; files := _; strings := _; stderr := _; draws := _ |}).
  assert (Hpeer : peer_key w1 (Some h) = Some (NID_X9_62_prime256v1, Some (x, y))).
  { unfold peer_key, deref. subst w1. cbn [heap]. by rewrite lookup_insert_eq. }
  destruct (key_shared_secret_post E (Some h) slen w1) as [b Q _ Hpeer' Hb|s out Hs _].
  - rewrite Hpeer in Hpeer'. injection Hpeer' as <-.
    exists h, b. subst w1. cbn [heap draws error_type fst snd] in *.
    apply lookup_insert_None in Hb as [Hb Hne]. by repeat split.
  - assert (Hnone : ss_first_failure E (Some h) w1 = None); [|congruence].
    apply ss_first_failure_None. rewrite Hlib. unfold peer_suits. by rewrite Hpeer.
Qed.

Lemma X9_witness :
  let r1 := key_from_sgx_ec256 env_ok (wire P256_Gx P256_Gy) world0 in
  let r2 := key_shared_secret env_ok r1.1 0 r1.2 in
  exists h b,
    r1.1 = Some h /\ r2.1.1 = Some b /\ r2.1.2 = 32 /\
    heap r2.2 =
      <[b := BUFFER 32 (be_bytes 32 (ecdh_x env_ok (entropy env_ok (draws world0))
                                      (P256_Gx, P256_Gy)))]>
        (<[h := EC_KEY NID_X9_62_prime256v1 (Some (P256_Gx, P256_Gy)) None]> (heap world0)) /\
    h <> b /\ heap world0 !! h = None /\ heap world0 !! b = None /\
    error_type r2.2 = e_none.
Proof.
  apply (X9_peer_key_then_secret env_ok P256_Gx P256_Gy 0 world0);
    vm_compute; reflexivity.
Defined.

(** ** key_load_file *)

Ltac lf_heap_leaf :=
  cbn [result]; norm; rewrite ?insert_insert_eq;
  first [ done
        | eexists; split; [eassumption | reflexivity]
        | eexists _, _; repeat split; first [eassumption | congruence] ].

(** The heap the function leaves: it makes up to two objects and frees
    none. *)
Lemma key_load_file_heap E eckey filename w :
  lf_heap E filename w
    (key_load_file E eckey filename w).1.2 (key_load_file E eckey filename w).2.
Proof.
  unfold key_load_file.
  change (wp (key_load_file_code E filename)
            (fun fl f' w' => lf_heap E filename w (lf.eckey f') w')
            {| lf.key := None; lf.fp := None; lf.eckey := eckey |} w).
  unfold key_load_file_code, EVP_PKEY_new, lf_heap, lf_heap_unparsed, opened, parsed.
  wp_steps.
  all: apply wp_call; unfold fopen, c_string; norm.
  all: rewrite Hok.
  all: destruct filename as [a|]; norm; [|wp_steps; lf_heap_leaf].
  all: destruct (strings w !! a) as [path|]; norm; [|wp_steps; lf_heap_leaf].
  all: destruct (fopen_result E path) as [e|content]; norm; wp_steps; [lf_heap_leaf|].
  all: pose proof (fresh_handle_None (files w)) as Hfp.
  all: set (fp := fresh_handle (files w)) in *.
  all: apply wp_call; unfold PEM_read_PrivateKey; norm.
  all: rewrite lookup_insert_eq; cbn [mbind option_bind].
  all: destruct (lib_ok E at_load_pem_read); [destruct content|]; norm.
  all: try lazymatch goal with
       | |- context [new_object true ?o ?W] =>
           let h := fresh "h" in let Hh := fresh "Hh" in let Hn := fresh "Hn" in
           destruct (new_object_cases true o W) as [(_ & h & Hh & Hn) | (? & _)];
           [rewrite Hn; clear Hn; norm_in Hh; fresh_facts Hh; norm | done]
       end.
  all: wp_steps.
  all: apply wp_call; unfold EVP_PKEY_get1_EC_KEY; norm; heap_lookups; norm.
  all: try lazymatch goal with
       | |- context [new_object true ?o ?W] =>
           let h := fresh "h" in let Hh := fresh "Hh" in let Hn := fresh "Hn" in
           destruct (new_object_cases true o W) as [(_ & h & Hh & Hn) | (? & _)];
           [rewrite Hn; clear Hn; norm_in Hh; fresh_facts Hh; norm | done]
       end.
  all: wp_steps; lf_heap_leaf.
Qed.

(** The outcome the summary of the function gives, put in the goal. *)
Ltac lf_outcome Hpost :=
  repeat lazymatch type of Hpost with
  | if lib_ok ?E at_load_pkey_new then _ else _ =>
      destruct (lib_ok E at_load_pkey_new)
  | ex _ => destruct Hpost as (? & Hpost)
  | _ = _ /\ _ => destruct Hpost as (Hpost & _)
  end;
  rewrite Hpost.

(** X10.  [key_load_file] returns 1 exactly when the file can be opened,
    holds an EC private key, on whatever curve, and the parser has the
    resources to read it.  Whether [EVP_PKEY_new] at line 26 succeeded does
    not matter: the parser makes the object itself when handed none. *)
Theorem X10_load_file_returns_1 (E : env) (eckey filename : ptr) (w : world) :
  (key_load_file E eckey filename w).1.1 = Returned 1 <->
  lib_ok E at_load_pem_read = true /\
  exists c Q d, opened E w filename = inr (PEM_ec_key c Q d).
Proof.
  pose proof (key_load_file_post E eckey filename w) as (_ & _ & _ & _ & Hpost).
  unfold parsed in Hpost.
  destruct (opened E w filename) as [e|content].
  { lf_outcome Hpost. split; [done | by intros (_ & ? & ? & ? & ?)]. }
  destruct Hpost as (_ & _ & Hpost).
  destruct (lib_ok E at_load_pem_read).
  - destruct content as [|c Q d|]; cbn [pem_body] in Hpost; lf_outcome Hpost.
    1, 2, 4: split; [done | by intros (_ & ? & ? & ? & ?)].
    split; [intros _; split; [done | by exists c, Q, d] | done].
  - lf_outcome Hpost; (split; [done | by intros (? & _)]).
Qed.


(** X12.  What a failed [key_load_file] leaves in [*eckey] depends on
    where it failed: the cell is as the caller left it when the file could
    not be opened, and holds NULL, whatever it held, when the failure came
    after the open, since line 36 assigns the cell before line 37 tests
    it. *)
Theorem X12_load_file_failure_eckey (E : env) (eckey filename : ptr) (w : world) :
  (key_load_file E eckey filename w).1.1 = Returned 0 ->
  (key_load_file E eckey filename w).1.2 =
    match opened E w filename with
    | inl _ => eckey
    | inr _ => None
    end.
Proof.
  intros Hr.
  pose proof (key_load_file_post E eckey filename w) as (_ & _ & _ & _ & Hpost).
  destruct (opened E w filename) as [e|content]; [tauto|].
  destruct Hpost as (_ & _ & Hpost).
  destruct (parsed E content) as [[|c pub priv|]|]; [tauto | | tauto |].
  - destruct Hpost as (h & Hr' & _). congruence.
  - destruct (lib_ok E at_load_pkey_new); [tauto | congruence].
Qed.

Lemma X12_witness :
  (key_load_file (env_failing_at at_load_pem_read) (Some 7%nat) (Some 1%nat) world0).1.2 =
    match opened (env_failing_at at_load_pem_read) world0 (Some 1%nat) with
    | inl _ => Some 7%nat
    | inr _ => None
    end.
Proof. apply X12_load_file_failure_eckey. vm_compute. reflexivity. Defined.

(** X13.  [key_load_file] never frees the [EVP_PKEY] object of line 26.
    When [EVP_PKEY_new] succeeded and the function returns 0, the heap
    after the call is the heap before it and that object, which no pointer
    the caller gets refers to: empty when the open or the parser failed,
    holding the key when the file held a key that is not an EC key. *)
Theorem X13_load_file_failure_leaves_wrapper
    (E : env) (eckey filename : ptr) (w : world) :
  lib_ok E at_load_pkey_new = true ->
  (key_load_file E eckey filename w).1.1 = Returned 0 ->
  exists k b,
    heap w !! k = None /\
    (b = PK_none \/ b = PK_not_ec) /\
    heap (key_load_file E eckey filename w).2 = <[k := EVP_PKEY b]> (heap w).
Proof.
  intros Hok Hr.
  pose proof (key_load_file_post E eckey filename w) as (_ & _ & _ & _ & Hpost).
  pose proof (key_load_file_heap E eckey filename w) as Hheap.
  unfold lf_heap, lf_heap_unparsed in Hheap. rewrite Hok in Hheap.
  destruct (opened E w filename) as [e|content].
  { destruct Hheap as (k & ? & ?). exists k, PK_none. auto. }
  destruct Hpost as (_ & _ & Hpost).
  destruct (parsed E content) as [[|c pub priv|]|].
  - destruct Hheap as (k & ? & ?). exists k, PK_none. auto.
  - destruct Hpost as (h & Hr' & _). congruence.
  - destruct Hheap as (k & ? & ?). exists k, PK_not_ec. auto.
  - destruct Hheap as (k & ? & ?). exists k, PK_none. auto.
Qed.

Lemma X13_witness :
  exists k b,
    heap world0 !! k = None /\
    (b = PK_none \/ b = PK_not_ec) /\
    heap (key_load_file env_ok None (Some 2%nat) world0).2 = <[k := EVP_PKEY b]> (heap world0).
Proof.
  apply X13_load_file_failure_leaves_wrapper; vm_compute; reflexivity.
Defined.

(** X14.  When [key_load_file] returns 1, the heap after the call is the
    heap before it and two new objects: the EC key whose handle is stored
    in [*eckey], and the [EVP_PKEY] object holding the same key, which the
    function does not free and hands to nobody. *)
Theorem X14_load_file_success_heap (E : env) (eckey filename : ptr) (w : world) :
  (key_load_file E eckey filename w).1.1 = Returned 1 ->
  exists k h c pub priv,
    (key_load_file E eckey filename w).1.2 = Some h /\
    h <> k /\ heap w !! k = None /\ heap w !! h = None /\
    heap (key_load_file E eckey filename w).2 =
      <[h := EC_KEY c pub priv]> (<[k := EVP_PKEY (PK_ec c pub priv)]> (heap w)).
Proof.
  intros Hr.
  pose proof (key_load_file_post E eckey filename w) as (_ & _ & _ & _ & Hpost).
  pose proof (key_load_file_heap E eckey filename w) as Hheap.
  unfold lf_heap in Hheap.
  destruct (opened E w filename) as [e|content].
  { destruct Hpost as (Hr' & _). congruence. }
  destruct Hpost as (_ & _ & Hpost).
  destruct (parsed E content) as [[|c pub priv|]|].
  - destruct Hpost as (Hr' & _). congruence.
  - destruct Hheap as (k & h & ? & ? & ? & ? & ?). by exists k, h, c, pub, priv.
  - destruct Hpost as (Hr' & _). congruence.
  - destruct (lib_ok E at_load_pkey_new); [destruct Hpost as (Hr' & _)|]; congruence.
Qed.

Lemma X14_witness :
  exists k h c pub priv,
    (key_load_file env_ok None (Some 1%nat) world0).1.2 = Some h /\
    h <> k /\ heap world0 !! k = None /\ heap world0 !! h = None /\
    heap (key_load_file env_ok None (Some 1%nat) world0).2 =
      <[h := EC_KEY c pub priv]> (<[k := EVP_PKEY (PK_ec c pub priv)]> (heap world0)).
Proof. apply X14_load_file_success_heap. vm_compute. reflexivity. Defined.

(** X15.  A key loaded from a file, used as the peer key.  For a file that
    holds an EC private key and a library with resources,
    [key_load_file] returns 1 whatever the curve, and [key_shared_secret]
    called on the handle it stored returns a secret exactly when the curve
    of the file is P-256; for another curve it returns NULL with the error
    kind [e_crypto], and frees what it made: the heap is as
    [key_load_file] left it. *)
Theorem X15_loaded_key_as_peer
    (E : env) (eckey filename : ptr) (w : world) (c : curve) (Q : Z * Z) (d : Z)
    (slen : Z) :
  lib_ok E at_load_pem_read = true ->
  opened E w filename = inr (PEM_ec_key c Q d) ->
  forallb (lib_ok E) ss_sites = true ->
  let r1 := key_load_file E eckey filename w in
  let r2 := key_shared_secret E r1.1.2 slen r1.2 in
  r1.1.1 = Returned 1 /\
  is_null r2.1.1 = negb (curve_eqb NID_X9_62_prime256v1 c) /\
  (r2.1.1 = None -> error_type r2.2 = e_crypto /\ heap r2.2 = heap r1.2).
Proof.
  intros Hok Hopen Hlib r1 r2.
  pose proof (key_load_file_post E eckey filename w) as (_ & _ & _ & _ & Hpost).
  fold r1 in Hpost. unfold parsed in Hpost. rewrite Hopen, Hok in Hpost.
  cbn [pem_body] in Hpost. destruct Hpost as (_ & _ & h & Hr & He & _ & Hh & _).
  assert (Hpeer : peer_key r1.2 r1.1.2 = Some (c, Some Q)).
  { rewrite He. unfold peer_key, deref. by rewrite Hh. }
  split; [done|]. subst r2.
  destruct (key_shared_secret_post E r1.1.2 slen r1.2) as [b Q' Hnone _ _|s out Hs _];
    cbn [fst snd error_type heap].
  - apply ss_first_failure_None in Hnone as [_ Hsuits]%andb_true_iff.
    unfold peer_suits in Hsuits. rewrite Hpeer in Hsuits. by rewrite Hsuits.
  - split; [|done].
    destruct (curve_eqb NID_X9_62_prime256v1 c) eqn:Hc; [|done].
    assert (Hnone : ss_first_failure E r1.1.2 r1.2 = None); [|congruence].
    apply ss_first_failure_None. rewrite Hlib. unfold peer_suits. by rewrite Hpeer.
Qed.

Lemma X15_witness :
  let r1 := key_load_file env_ok None (Some 1%nat) world0 in
  let r2 := key_shared_secret env_ok r1.1.2 0 r1.2 in
  r1.1.1 = Returned 1 /\
  is_null r2.1.1 = negb (curve_eqb NID_X9_62_prime256v1 secp384r1) /\
  (r2.1.1 = None -> error_type r2.2 = e_crypto /\ heap r2.2 = heap r1.2).
Proof.
  apply (X15_loaded_key_as_peer env_ok None (Some 1%nat) world0 secp384r1
           (generator secp384r1) 1 0); vm_compute; reflexivity.
Defined.

(** ** key_perror *)

(** What a report prints, by the kind the record holds. *)
Lemma key_perror_stderr prefix w :
  stderr (key_perror prefix w) =
    stderr w ++ [Out_text (prefix +:+ ": ");
                 match error_type w with
                 | e_none => Out_text ("no error" +:+ newline)
                 | e_system => Out_perror (c_string w (ep w)) (errno w)
                 | e_crypto => Out_error_queue
                 end].
Proof.
  unfold key_perror. cbn [emit error_type].
  destruct (error_type w); repeat (case_decide; try done);
    unfold perror, ERR_print_errors_fp, c_string; cbn [emit stderr ep strings errno];
    by rewrite <- app_assoc.
Qed.

(** A report under a kind other than [e_system] reads neither [errno] nor
    the caller's strings. *)
Lemma key_perror_after between prefix w :
  error_type w <> e_system ->
  stderr (key_perror prefix (interfere_all between w)) =
    stderr w ++ [Out_text (prefix +:+ ": ");
                 if decide (error_type w = e_none)
                 then Out_text ("no error" +:+ newline) else Out_error_queue].
Proof.
  intros Hk. rewrite key_perror_stderr.
  destruct (interfere_all_statics between w) as (-> & _ & ->).
  by destruct (error_type w).
Qed.

(** X16.  A report after a success.  After each of the three operations
    has succeeded, [key_perror] prints the prefix, a colon and a space, and
    the line [no error], whatever the record held before the operation
    (an earlier failure is forgotten) and whatever sets [errno] or
    overwrites the caller's strings before the report.  After
    [key_shared_secret] the two lines the function itself printed come
    first. *)
Theorem X16_report_after_success
    (E : env) (w : world) (prefix : string) (between : list interference) :
  (forall eckey filename,
     let r := key_load_file E eckey filename w in
     r.1.1 = Returned 1 ->
     stderr (key_perror prefix (interfere_all between r.2)) =
       stderr w ++ [Out_text (prefix +:+ ": "); Out_text ("no error" +:+ newline)]) /\
  (forall k h,
     let r := key_from_sgx_ec256 E k w in
     r.1 = Some h ->
     stderr (key_perror prefix (interfere_all between r.2)) =
       stderr w ++ [Out_text (prefix +:+ ": "); Out_text ("no error" +:+ newline)]) /\
  (forall ec_g_a slen b,
     let r := key_shared_secret E ec_g_a slen w in
     r.1.1 = Some b ->
     stderr (key_perror prefix (interfere_all between r.2)) =
       stderr w ++ [Out_slen 32; Out_secret (Some b);
                    Out_text (prefix +:+ ": "); Out_text ("no error" +:+ newline)]).
Proof.
  split; [|split].
  - intros eckey filename r Hr.
    pose proof (key_load_file_post E eckey filename w) as (_ & _ & Herr & _ & Hpost).
    fold r in Herr, Hpost.
    assert (Hk : error_type r.2 = e_none).
    { destruct (opened E w filename) as [e|content].
      { destruct Hpost as (Hr' & _). congruence. }
      destruct Hpost as (_ & _ & Hpost).
      destruct (parsed E content) as [[|c pub priv|]|].
      - destruct Hpost as (Hr' & _). congruence.
      - by destruct Hpost as (h & _ & _ & _ & _ & ? & _).
      - destruct Hpost as (Hr' & _). congruence.
      - destruct (lib_ok E at_load_pkey_new); [destruct Hpost as (Hr' & _)|]; congruence. }
    rewrite key_perror_after by (by rewrite Hk). rewrite Hk, Herr. done.
  - intros k h r Hr. subst r.
    destruct (key_from_sgx_ec256_post E k w); [|done].
    by rewrite key_perror_after.
  - intros ec_g_a slen b r Hr. subst r.
    destruct (key_shared_secret_post E ec_g_a slen w); [|done].
    injection Hr as ->.
    rewrite key_perror_after by done. cbn [stderr error_type snd].
    by rewrite <- app_assoc.
Qed.

(** X17.  A report after a failure of the library.  After
    [key_from_sgx_ec256] or [key_shared_secret] has returned NULL, and after
    [key_load_file] has returned 0 for a file it could open, [key_perror]
    prints the prefix and the error queue of the library; unlike the report
    of a failed open it reads neither [errno] nor the caller's strings, so
    nothing that sets them before the report changes what is printed. *)
Theorem X17_report_after_crypto_failure
    (E : env) (w : world) (prefix : string) (between : list interference) :
  (forall k,
     let r := key_from_sgx_ec256 E k w in
     r.1 = None ->
     stderr (key_perror prefix (interfere_all between r.2)) =
       stderr w ++ [Out_text (prefix +:+ ": "); Out_error_queue]) /\
  (forall ec_g_a slen,
     let r := key_shared_secret E ec_g_a slen w in
     r.1.1 = None ->
     stderr (key_perror prefix (interfere_all between r.2)) =
       stderr r.2 ++ [Out_text (prefix +:+ ": "); Out_error_queue]) /\
  (forall eckey filename content,
     let r := key_load_file E eckey filename w in
     opened E w filename = inr content ->
     r.1.1 = Returned 0 ->
     stderr (key_perror prefix (interfere_all between r.2)) =
       stderr w ++ [Out_text (prefix +:+ ": "); Out_error_queue]).
Proof.
  split; [|split].
  - intros k r Hr. subst r.
    destruct (key_from_sgx_ec256_post E k w); [done|].
    by rewrite key_perror_after.
  - intros ec_g_a slen r Hr. subst r.
    destruct (key_shared_secret_post E ec_g_a slen w); [done|].
    by rewrite key_perror_after.
  - intros eckey filename content r Hopen Hr.
    pose proof (key_load_file_post E eckey filename w) as (_ & _ & Herr & _ & Hpost).
    fold r in Herr, Hpost. rewrite Hopen in Hpost.
    destruct Hpost as (_ & _ & Hpost).
    assert (Hk : error_type r.2 = e_crypto).
    { destruct (parsed E content) as [[|c pub priv|]|]; [tauto| |tauto|].
      - destruct Hpost as (h & Hr' & _). congruence.
      - destruct (lib_ok E at_load_pkey_new); [tauto|congruence]. }
    rewrite key_perror_after by (by rewrite Hk). rewrite Hk, Herr. done.
Qed.
